(** * StreamDeckController: key-image rendering and write suppression

    A shallow embedding of [src/controller/steam_deck.py].

    The controller object is a record; its methods are functions in a
    state-and-exception monad over that record (a Python exception leaves
    the mutations made before it in place, so the state is returned on
    both outcomes).  The device, PIL and the asset helpers are external
    collaborators: they are interfaces (type classes) here, and every call
    that reaches the device, the asset loader or the output publisher is
    recorded in a call log carried by the state, so that hardware writes
    and asset loads can be counted. *)

From stdpp Require Import gmap strings list.

Local Open Scope Z_scope.

(** ** Python values and exceptions *)

Inductive exn : Set :=
| TransportError
| IndexError
| KeyError
| ZeroDivisionError
| AssetError
| ValueError
| FontError.

Global Instance exn_eq_dec : EqDecision exn.
Proof. solve_decision. Defined.

Inductive outcome (A : Type) : Type :=
| Ok (a : A)
| Raise (e : exn).
Arguments Ok {A} a.
Arguments Raise {A} e.

Definition outcome_bind {A B} (o : outcome A) (f : A -> outcome B) : outcome B :=
  match o with
  | Ok a => f a
  | Raise e => Raise e
  end.

(** [l[i]] on a Python list: a negative index counts from the end, an index
    outside [-len, len) raises IndexError. *)
Definition py_index {A} (l : list A) (i : Z) : option nat :=
  let n := Z.of_nat (length l) in
  let j := if bool_decide (i < 0) then i + n else i in
  if bool_decide (0 <= j < n) then Some (Z.to_nat j) else None.

Definition py_getitem {A} (l : list A) (i : Z) : outcome A :=
  match py_index l i with
  | Some j => match l !! j with Some x => Ok x | None => Raise IndexError end
  | None => Raise IndexError
  end.

Definition py_setitem {A} (l : list A) (i : Z) (x : A) : outcome (list A) :=
  match py_index l i with
  | Some j => Ok (<[j:=x]> l)
  | None => Raise IndexError
  end.

(** [d[k]] on a dict raises KeyError for a missing key. *)
Definition dict_getitem {V} (d : gmap Z V) (k : Z) : outcome V :=
  match d !! k with
  | Some v => Ok v
  | None => Raise KeyError
  end.

(** [a // b] and [a % b] on Python ints: floor division, the remainder has
    the sign of the divisor, a zero divisor raises. *)
Definition py_floordiv (a b : Z) : outcome Z :=
  if bool_decide (b = 0) then Raise ZeroDivisionError else Ok (a `div` b).

Definition py_mod (a b : Z) : outcome Z :=
  if bool_decide (b = 0) then Raise ZeroDivisionError else Ok (a `mod` b).

(** [range(n)] *)
Definition range (n : nat) : list Z := Z.of_nat <$> seq 0 n.

(** ** Module constants *)

Definition KEY_SPACING : Z * Z := (36, 36).
Definition FOREGROUND_COLOR : string := "#FFFFFF".
Definition BACKGROUND_COLOR : string := "#9D2235".
Definition BACKGROUND_IMAGE : string := "Decepticub.png".
Definition ACTIVE_COLOR : string := BACKGROUND_COLOR.
Definition NOT_ACTIVE_COLOR : string := "#424242".

(** ** Geometry

    The arithmetic of [create_full_deck_sized_image] (the tuple
    [full_deck_image_size]) and of [crop_key_image_from_deck_sized_image]
    (the tuple [region]), as functions of what the deck reports:
    [key_layout() = (rows, cols)] and [key_image_format()["size"]]. *)

Definition full_deck_image_size (layout size : Z * Z) : Z * Z :=
  let '(key_rows, key_cols) := layout in
  let '(key_width, key_height) := size in
  let '(spacing_x, spacing_y) := KEY_SPACING in
  let key_width := key_width * key_cols in
  let key_height := key_height * key_rows in
  let spacing_x := spacing_x * (key_cols - 1) in
  let spacing_y := spacing_y * (key_rows - 1) in
  (key_width + spacing_x, key_height + spacing_y).

Definition region (layout size : Z * Z) (key : Z) : outcome (Z * Z * Z * Z) :=
  let '(_, key_cols) := layout in
  let '(key_width, key_height) := size in
  let '(spacing_x, spacing_y) := KEY_SPACING in
  outcome_bind (py_floordiv key key_cols) (fun row =>
  outcome_bind (py_mod key key_cols) (fun col =>
  let start_x := col * (key_width + spacing_x) in
  let start_y := row * (key_height + spacing_y) in
  Ok (start_x, start_y, start_x + key_width, start_y + key_height))).

(** ** Write tags

    The entries of [_last_images]: a pair of a string and either [None] or
    the render key, compared with Python's tuple equality. *)

Definition render_key_t : Type := string * string * string.
Definition tag : Type := string * option render_key_t.

Definition TAG_NONE : tag := ("none"%string, None).
Definition TAG_RENDER_ALL : tag := ("render_all"%string, None).
Definition TAG_EMPTY_KEY : tag := ("empty_key"%string, None).
Definition TAG_RENDER_KEY (icon label background : string) : tag :=
  ("render_key"%string, Some (icon, label, background)).

(** ** The configuration collaborator *)

(** Modelled from the spec: [config/config_store.py] is not part of the
    sources; the controller reads [button.icon], [button.label],
    [button.selected], [config.remote_connected] and [config.buttons], an
    ordered sequence of optional button entries indexed by tile. *)
Record ButtonConfig : Type := {
  icon : string;
  label : string;
  selected : bool;
}.

Record ConfigStore : Type := {
  remote_connected : bool;
  buttons : list (option ButtonConfig);
}.

(** ** External interfaces *)

(** PIL, matplotlib's font manager, [util.image_util] and [os.path.join].
    Loading an asset or a font can fail, and so can resampling; the other
    pixel operations are total. *)
Class ImageOps (Image : Type) : Type := {
  image_width : Image -> Z;
  image_height : Image -> Z;
  (* Image.open(path).convert("RGBA") *)
  Image_open : string -> option Image;
  (* Image.new("RGBA", size, color=color), for a size that passed the
     check of [py_Image_new] below *)
  Image_new : Z * Z -> string -> Image;
  (* im.paste(src, box, mask) *)
  Image_paste : Image -> Image -> Z * Z -> option Image -> Image;
  (* ImageOps.fit(im, size, Image.Resampling.LANCZOS); resampling to a
     degenerate size raises *)
  ImageOps_fit : Image -> Z * Z -> outcome Image;
  (* im.crop(region) *)
  Image_crop : Image -> Z * Z * Z * Z -> Image;
  (* the font objects of ImageFont *)
  Font : Type;
  (* font_manager.findfont(font_manager.FontProperties(family=family)):
     the file of the font found *)
  findfont : string -> option string;
  (* ImageFont.truetype(file, size) *)
  ImageFont_truetype : string -> Z -> option Font;
  (* ImageDraw.Draw(im).text((im.width / 2, im.height - 5), text=text,
     font=font, anchor="ms", fill="white") *)
  draw_text : Image -> string -> Font -> Image;
  (* image_util.image_from_svg(path, size) *)
  image_from_svg : string -> Z -> option Image;
  (* image_util.color_image(icon, color) *)
  color_image : Image -> string -> Image;
  (* os.path.join *)
  path_join : string -> string -> string;
}.

(** [Image.new("RGBA", size, color=color)]: PIL checks the size first and
    raises ValueError when the width or the height is negative. *)
Definition py_Image_new {Image} `{!ImageOps Image} (size : Z * Z) (color : string)
  : outcome Image :=
  if bool_decide (size.1 < 0 \/ size.2 < 0) then Raise ValueError
  else Ok (Image_new size color).

(** The StreamDeck device and [PILHelper].  [key_count], [key_layout] and
    the key image size are constants of the device model.  A transport
    call returns whether it succeeded ([false]: it raised TransportError)
    and the device afterwards. *)
Class DeckOps (D Image Native : Type) : Type := {
  key_count : nat;
  key_layout : Z * Z;
  key_image_size : Z * Z;
  deck_is_open : D -> bool;
  deck_open : D -> bool * D;
  deck_close : D -> bool * D;
  deck_get_serial_number : D -> bool * D;
  deck_get_firmware_version : D -> bool * D;
  deck_set_brightness : Z -> D -> bool * D;
  deck_set_key_callback : D -> bool * D;
  deck_set_key_image : Z -> Native -> D -> bool * D;
  (* PILHelper.create_key_image(deck, background=background) *)
  create_key_image : string -> Image;
  (* PILHelper.create_scaled_key_image(deck, icon, margins=margins,
     background=background) *)
  create_scaled_key_image : Image -> list Z -> string -> Image;
  (* PILHelper.to_native_key_format(deck, image) *)
  to_native_key_format : Image -> Native;
}.
Arguments key_count D {Image Native _}.
Arguments key_layout D {Image Native _}.
Arguments key_image_size D {Image Native _}.
Arguments create_key_image D {Image Native _} _.
Arguments create_scaled_key_image D {Image Native _} _ _ _.
Arguments to_native_key_format D {Image Native _} _.

(** Calls made to the collaborators, most recent first. *)
Inductive event (Native : Type) : Type :=
| EvOpen
| EvClose
| EvGetSerialNumber
| EvGetFirmwareVersion
| EvSetBrightness (percent : Z)
| EvSetKeyCallback
| EvSetKeyImage (key : Z) (image : Native)
| EvImageFromSvg (path : string)
| EvSendButtonSelected (key : Z) (sel : bool).
Arguments EvOpen {Native}.
Arguments EvClose {Native}.
Arguments EvGetSerialNumber {Native}.
Arguments EvGetFirmwareVersion {Native}.
Arguments EvSetBrightness {Native} percent.
Arguments EvSetKeyCallback {Native}.
Arguments EvSetKeyImage {Native} key image.
Arguments EvImageFromSvg {Native} path.
Arguments EvSendButtonSelected {Native} key sel.

Definition is_write {Native} (e : event Native) : bool :=
  match e with
  | EvSetKeyImage _ _ => true
  | _ => false
  end.

Definition written_key {Native} (e : event Native) : option Z :=
  match e with
  | EvSetKeyImage key _ => Some key
  | _ => None
  end.

Definition is_asset_load {Native} (e : event Native) : bool :=
  match e with
  | EvImageFromSvg _ => true
  | _ => false
  end.

(** ** The controller *)

Section Controller.
Context {D Image Native : Type}.
Context `{!ImageOps Image} `{!DeckOps D Image Native}.

(** The fields of [StreamDeckController] that outlive [__init__], and
    the call log.  [self._config] is a reference to a store that the
    configuration collaborator mutates between cycles: its contents at
    the time of a call are an argument of [update] and [open]. *)
Record StreamDeckController : Type := {
  _deck : D;
  _assets_path : string;
  _default_background : gmap Z Native;
  _icon_cache : gmap render_key_t Image;
  _last_images : list tag;
  _default_font : Font;
  calls : list (event Native);
}.

Definition with_deck (d : D) (s : StreamDeckController) :=
  {| _deck := d; _assets_path := _assets_path s;
     _default_background := _default_background s;
     _icon_cache := _icon_cache s; _last_images := _last_images s;
     _default_font := _default_font s; calls := calls s |}.

Definition with_icon_cache (c : gmap render_key_t Image) (s : StreamDeckController) :=
  {| _deck := _deck s; _assets_path := _assets_path s;
     _default_background := _default_background s;
     _icon_cache := c; _last_images := _last_images s;
     _default_font := _default_font s; calls := calls s |}.

Definition with_last_images (l : list tag) (s : StreamDeckController) :=
  {| _deck := _deck s; _assets_path := _assets_path s;
     _default_background := _default_background s;
     _icon_cache := _icon_cache s; _last_images := l;
     _default_font := _default_font s; calls := calls s |}.

Definition with_call (e : event Native) (s : StreamDeckController) :=
  {| _deck := _deck s; _assets_path := _assets_path s;
     _default_background := _default_background s;
     _icon_cache := _icon_cache s; _last_images := _last_images s;
     _default_font := _default_font s; calls := e :: calls s |}.

(** Hardware writes and asset loads made so far. *)
Definition writes (s : StreamDeckController) : list (event Native) :=
  filter (fun e => is_write e = true) (calls s).

Definition asset_loads (s : StreamDeckController) : list (event Native) :=
  filter (fun e => is_asset_load e = true) (calls s).

(** The tile indices of the hardware writes made so far. *)
Definition written_keys (s : StreamDeckController) : list Z :=
  omap written_key (calls s).

(** *** The method monad *)

Definition M (A : Type) : Type :=
  StreamDeckController -> outcome A * StreamDeckController.

Definition ret {A} (a : A) : M A := fun s => (Ok a, s).

Definition raise {A} (e : exn) : M A := fun s => (Raise e, s).

Definition bind {A B} (m : M A) (f : A -> M B) : M B := fun s =>
  match m s with
  | (Ok a, s') => f a s'
  | (Raise e, s') => (Raise e, s')
  end.

Definition lift {A} (o : outcome A) : M A := fun s => (o, s).

Definition get : M StreamDeckController := fun s => (Ok s, s).

Definition modify (f : StreamDeckController -> StreamDeckController) : M unit :=
  fun s => (Ok tt, f s).

(** [try: m except e: pass] *)
Definition try_except_pass (m : M unit) (e : exn) : M unit := fun s =>
  match m s with
  | (Ok a, s') => (Ok a, s')
  | (Raise e', s') => if decide (e' = e) then (Ok tt, s') else (Raise e', s')
  end.

(** [for x in l: body(x)] *)
Fixpoint for_each {A} (l : list A) (body : A -> M unit) : M unit :=
  match l with
  | [] => ret tt
  | x :: l' => bind (body x) (fun _ => for_each l' body)
  end.

(** A call of a device method: logged, then run on the device. *)
Definition deck_call (e : event Native) (op : D -> bool * D) : M unit := fun s =>
  let '(ok, d) := op (_deck s) in
  (if ok then Ok tt else Raise TransportError, with_deck d (with_call e s)).

(** A call of [image_util.image_from_svg]: logged, fails if the asset
    cannot be loaded. *)
Definition load_svg (path : string) (size : Z) : M Image := fun s =>
  (match image_from_svg path size with
   | Some im => Ok im
   | None => Raise AssetError
   end, with_call (EvImageFromSvg path) s).

End Controller.

Arguments StreamDeckController D Image Native {_}.
Arguments M D Image Native {_}.

Declare Scope method_scope.
Delimit Scope method_scope with method.
Notation "x <- m ;; k" := (bind m (fun x => k))
  (at level 100, m at next level, right associativity) : method_scope.
Notation "m ;; k" := (bind m (fun _ => k))
  (at level 100, right associativity) : method_scope.

Section Methods.
Context {D Image Native : Type}.
Context `{!ImageOps Image} `{!DeckOps D Image Native}.

Local Abbreviation Ctl := (StreamDeckController D Image Native).
Local Abbreviation Method := (M D Image Native).
Local Open Scope method_scope.

(** [create_full_deck_sized_image]: reads only the deck's constants and
    the assets path, which [__init__] has set before it is called. *)
Definition create_full_deck_sized_image (assets_path image_filename : string)
  : outcome Image :=
  let size := full_deck_image_size (key_layout D) (key_image_size D) in
  match Image_open (path_join assets_path image_filename) with
  | None => Raise AssetError
  | Some foreground =>
      outcome_bind (py_floordiv (image_height foreground * size.1) size.2) (fun w =>
      outcome_bind (py_Image_new (w, image_height foreground) BACKGROUND_COLOR)
        (fun image =>
      outcome_bind (py_floordiv (image_width image - image_width foreground) 2) (fun x =>
      let image := Image_paste image foreground (x, 0) (Some foreground) in
      ImageOps_fit image size)))
  end.

Definition crop_key_image_from_deck_sized_image (image : Image) (key : Z)
  : outcome Native :=
  outcome_bind (region (key_layout D) (key_image_size D) key) (fun r =>
  let segment := Image_crop image r in
  let key_image := create_key_image D "black" in
  let key_image := Image_paste key_image segment (0, 0) None in
  Ok (to_native_key_format D key_image)).

Fixpoint crop_each (image : Image) (ks : list Z) (key_images : gmap Z Native)
  : outcome (gmap Z Native) :=
  match ks with
  | [] => Ok key_images
  | k :: ks' =>
      outcome_bind (crop_key_image_from_deck_sized_image image k) (fun n =>
      crop_each image ks' (<[k:=n]> key_images))
  end.

Definition generate_key_images_from_deck_sized_image
    (assets_path image_filename : string) : outcome (gmap Z Native) :=
  outcome_bind (create_full_deck_sized_image assets_path image_filename) (fun image =>
  crop_each image (range (key_count D)) ∅).

(** [__init__]: the background slices first, then the cache and the
    tags, then the font (the file of the Arial family, opened at size
    14). *)
Definition init (deck : D) (assets_path : string) : outcome Ctl :=
  outcome_bind (generate_key_images_from_deck_sized_image assets_path BACKGROUND_IMAGE)
    (fun default_background =>
  match findfont "Arial" with
  | None => Raise FontError
  | Some file =>
      match ImageFont_truetype file 14 with
      | None => Raise FontError
      | Some font =>
          Ok {| _deck := deck; _assets_path := assets_path;
                _default_background := default_background;
                _icon_cache := ∅;
                _last_images := replicate (key_count D) TAG_NONE;
                _default_font := font;
                calls := [] |}
      end
  end).

(** [self._last_images[key]] and [self._last_images[key] = t] *)
Definition last_images_get (key : Z) : Method tag :=
  s <- get ;; lift (py_getitem (_last_images s) key).

Definition last_images_set (key : Z) (t : tag) : Method unit :=
  s <- get ;;
  l <- lift (py_setitem (_last_images s) key t) ;;
  modify (with_last_images l).

(** [self._deck.set_key_image(key, image)] *)
Definition deck_write (key : Z) (image : Native) : Method unit :=
  deck_call (EvSetKeyImage key image) (deck_set_key_image key image).

(** The Write Suppressor as the specification words it (section 4.5,
    [maybeWrite]): compare the candidate tag with the stored one; if
    equal do nothing; if different call the device, then store the
    candidate tag.  The source has no such function: it inlines the
    pattern in [render_all_keys], [set_key_empty] and [set_key_image],
    which are translated as written below and compared with this one. *)
Definition maybeWrite (tileIndex : Z) (candidateTag : tag) (candidateImage : Native)
  : Method unit :=
  stored <- last_images_get tileIndex ;;
  if decide (stored ≠ candidateTag) then
    deck_write tileIndex candidateImage ;;
    last_images_set tileIndex candidateTag
  else ret tt.

(** The body of the loop of [render_all_keys]. *)
Definition render_all_keys_body (key_images : gmap Z Native) (k : Z) : Method unit :=
  key_image <- lift (dict_getitem key_images k) ;;
  let unique_key := TAG_RENDER_ALL in
  last <- last_images_get k ;;
  if decide (last ≠ unique_key) then
    deck_write k key_image ;;
    last_images_set k unique_key
  else ret tt.

Definition render_all_keys (key_images : gmap Z Native) : Method unit :=
  for_each (range (key_count D)) (render_all_keys_body key_images).

Definition render_default_background : Method unit :=
  s <- get ;; render_all_keys (_default_background s).

Definition render_key (icon_filename label_text background : string) : Method Native :=
  let cache_key := (icon_filename, label_text, background) in
  s <- get ;;
  match _icon_cache s !! cache_key with
  | Some cached => ret (to_native_key_format D cached)
  | None =>
      image <- (if decide (icon_filename ≠ ""%string) then
                  let icon_path :=
                    path_join (_assets_path s) (icon_filename +:+ ".svg") in
                  icon <- load_svg icon_path 48 ;;
                  let icon := color_image icon FOREGROUND_COLOR in
                  ret (create_scaled_key_image D icon [0; 0; 20; 0] background)
                else ret (create_key_image D background)) ;;
      let image := draw_text image label_text (_default_font s) in
      modify (fun s => with_icon_cache (<[cache_key:=image]> (_icon_cache s)) s) ;;
      ret (to_native_key_format D image)
  end.

Definition set_key_empty (key : Z) : Method unit :=
  let image := create_key_image D NOT_ACTIVE_COLOR in
  let unique_key := TAG_EMPTY_KEY in
  last <- last_images_get key ;;
  if decide (last ≠ unique_key) then
    deck_write key (to_native_key_format D image) ;;
    last_images_set key unique_key
  else ret tt.

Definition set_key_image (key : Z) (button : ButtonConfig) : Method unit :=
  let background := if selected button then ACTIVE_COLOR else NOT_ACTIVE_COLOR in
  image <- render_key (icon button) (label button) background ;;
  let unique_key := TAG_RENDER_KEY (icon button) (label button) background in
  last <- last_images_get key ;;
  if decide (last ≠ unique_key) then
    deck_write key image ;;
    last_images_set key unique_key
  else ret tt.

(** [on_key_change]: the serial number is read for the printed line. *)
Definition on_key_change (key : Z) (sel : bool) : Method unit :=
  deck_call EvGetSerialNumber deck_get_serial_number ;;
  modify (with_call (EvSendButtonSelected key sel)).

(** The body of the loop of [update]. *)
Definition update_body (config : ConfigStore) (key : Z) : Method unit :=
  button <- (if bool_decide (key < Z.of_nat (length (buttons config)))
             then lift (py_getitem (buttons config) key)
             else ret None) ;;
  match button with
  | None => set_key_empty key
  | Some button => set_key_image key button
  end.

Definition update (config : ConfigStore) : Method unit :=
  if negb (remote_connected config) then
    render_default_background
  else
    for_each (range (key_count D)) (update_body config).

Definition is_open : Method bool :=
  s <- get ;; ret (deck_is_open (_deck s)).

Definition close_deck : Method unit :=
  s <- get ;;
  if deck_is_open (_deck s) then
    render_default_background ;;
    deck_call EvClose deck_close
  else ret tt.

Definition open (config : ConfigStore) : Method unit :=
  deck_call EvOpen deck_open ;;
  deck_call EvGetSerialNumber deck_get_serial_number ;;
  deck_call EvGetFirmwareVersion deck_get_firmware_version ;;
  deck_call (EvSetBrightness 80) (deck_set_brightness 80) ;;
  deck_call EvSetKeyCallback deck_set_key_callback ;;
  update config.

Definition close : Method unit := close_deck.

(** [__enter__] and [__exit__] *)
Definition enter (config : ConfigStore) : Method unit := open config.

Definition exit : Method unit := try_except_pass close TransportError.

(** *** Notions used to state the properties *)

(** The state right after [self._deck.set_key_image(key, image)] was
    called, whether it succeeded or raised. *)
Definition after_write (key : Z) (image : Native) (s : Ctl) : Ctl :=
  with_deck (deck_set_key_image key image (_deck s)).2
    (with_call (EvSetKeyImage key image) s).

(** The background and the tag that [set_key_image] computes for a
    button. *)
Definition button_background (button : ButtonConfig) : string :=
  if selected button then ACTIVE_COLOR else NOT_ACTIVE_COLOR.

Definition button_tag (button : ButtonConfig) : tag :=
  TAG_RENDER_KEY (icon button) (label button) (button_background button).

(** The button configured for tile [k], if any, and the tag [update]
    computes for that tile when the remote is connected. *)
Definition configured (config : ConfigStore) (k : nat) : option ButtonConfig :=
  match buttons config !! k with
  | Some (Some button) => Some button
  | _ => None
  end.

Definition candidate_tag (config : ConfigStore) (k : nat) : tag :=
  match configured config k with
  | Some button => button_tag button
  | None => TAG_EMPTY_KEY
  end.

(** What a run [r] of an update of tile [k] under the candidate tag
    [c], started in [s], does: it touches no other tile's tag; when it
    returns, tile [k] carries [c]; when tile [k] already carried [c] it
    wrote nothing and changed no tag; when it returns and tile [k]
    carried another tag, it made exactly one write, to tile [k]. *)
Definition tile_post (k : nat) (c : tag) (s : Ctl) (r : outcome unit * Ctl)
  : Prop :=
  length (_last_images r.2) = length (_last_images s)
  /\ _default_background r.2 = _default_background s
  /\ (forall j : nat, j ≠ k -> _last_images r.2 !! j = _last_images s !! j)
  /\ (r.1 = Ok tt -> _last_images r.2 !! k = Some c)
  /\ (_last_images s !! k = Some c ->
      writes r.2 = writes s /\ _last_images r.2 = _last_images s)
  /\ (r.1 = Ok tt ->
      forall stored, _last_images s !! k = Some stored -> stored ≠ c ->
      exists image, writes r.2 = EvSetKeyImage (Z.of_nat k) image :: writes s).

(** A loop body that updates tile [k] under the tag [cand k]. *)
Definition tile_step (body : Z -> Method unit) (cand : nat -> tag) : Prop :=
  forall (k : nat) (s : Ctl), tile_post k (cand k) s (body (Z.of_nat k) s).

(** The image [render_key] composes on a cache miss, from the icon it
    loaded (if any). *)
Definition composed (assets_path icon_filename label_text background : string)
    (font : Font) : option Image :=
  if decide (icon_filename ≠ ""%string) then
    match image_from_svg (path_join assets_path (icon_filename +:+ ".svg")) 48 with
    | Some ic =>
        Some (draw_text
                (create_scaled_key_image D (color_image ic FOREGROUND_COLOR)
                   [0; 0; 20; 0] background) label_text font)
    | None => None
    end
  else Some (draw_text (create_key_image D background) label_text font).

End Methods.

(** ** Notions for the properties of whole cycles and sessions *)

Section Notions.
Context {D Image Native : Type}.
Context `{!ImageOps Image} `{!DeckOps D Image Native}.

Local Abbreviation Ctl := (StreamDeckController D Image Native).

(** What [__init__] establishes and every method keeps: one tag per key,
    and a background slice for every key. *)
Definition well_formed (s : Ctl) : Prop :=
  length (_last_images s) = key_count D
  /\ forall k : nat, (k < key_count D)%nat ->
       is_Some (_default_background s !! Z.of_nat k).

(** The tiles among the first [n] whose stored tag is not the tag [cand]
    gives them, in index order. *)
Definition stale_keys (cand : nat -> tag) (n : nat) (s : Ctl) : list Z :=
  Z.of_nat <$> filter (fun k => _last_images s !! k ≠ Some (cand k)) (seq 0 n).

(** The cache key [set_key_image] renders a button under. *)
Definition button_key (button : ButtonConfig) : render_key_t :=
  (icon button, label button, button_background button).

(** The device calls [open] makes before its update cycle, most recent
    first. *)
Definition OPEN_HANDSHAKE : list (event Native) :=
  [EvSetKeyCallback; EvSetBrightness 80; EvGetFirmwareVersion;
   EvGetSerialNumber; EvOpen].

(** [s1] differs from [s] at most in the device and the call log. *)
Definition same_memory (s s1 : Ctl) : Prop :=
  _assets_path s1 = _assets_path s
  /\ _default_background s1 = _default_background s
  /\ _icon_cache s1 = _icon_cache s
  /\ _last_images s1 = _last_images s.

(** The tag an update cycle gives tile [k]: the background tag when the
    remote is not connected, the tag of the tile's button or the empty
    tag when it is. *)
Definition cycle_tag (config : ConfigStore) (k : nat) : tag :=
  if remote_connected config then candidate_tag config k else TAG_RENDER_ALL.

(** The tiles among the first [n] to which two configurations give
    different tags, in index order. *)
Definition changed_keys (config config' : ConfigStore) (n : nat) : list Z :=
  Z.of_nat <$> filter (fun k => cycle_tag config k ≠ cycle_tag config' k) (seq 0 n).

(** The state right after the device method [op] was called and logged as
    [e], whether it returned or raised, and whether the device accepts
    that call in the state [s]. *)
Definition called (e : event Native) (op : D -> bool * D) (s : Ctl) : Ctl :=
  with_deck (op (_deck s)).2 (with_call e s).

Definition accepts (op : D -> bool * D) (s : Ctl) : bool := (op (_deck s)).1.

(** [s1] was reached from [s] by device calls that are all key-image
    writes. *)
Definition only_wrote (s s1 : Ctl) : Prop :=
  exists l : list (event Native),
    calls s1 = l ++ calls s /\ Forall (fun e => is_write e = true) l.

End Notions.

(** ** A simulated device and image library

    A concrete instance of the two interfaces, on which the methods run.
    Images are the terms that built them, so two images are equal exactly
    when they were produced by the same operations on the same inputs.
    The simulated deck has 2 rows of 4 keys of 72x72 pixels; its transport
    fails once when its fuse reaches zero. *)

Inductive SimImage : Type :=
| SimOpened (path : string)
| SimNew (size : Z * Z) (color : string)
| SimPaste (im src : SimImage) (box : Z * Z)
| SimPasteMask (im src : SimImage) (box : Z * Z) (mask : SimImage)
| SimFit (im : SimImage) (size : Z * Z)
| SimCrop (im : SimImage) (r : Z * Z * Z * Z)
| SimText (im : SimImage) (text : string) (font : string * Z)
| SimSvg (path : string) (size : Z)
| SimColor (im : SimImage) (color : string)
| SimKey (background : string)
| SimScaled (icon : SimImage) (margins : list Z) (background : string).

Inductive SimNative : Type :=
| SimBytes (im : SimImage).

Fixpoint sim_size (im : SimImage) : Z * Z :=
  match im with
  | SimOpened _ => (512, 512)
  | SimNew size _ => size
  | SimPaste im _ _ => sim_size im
  | SimPasteMask im _ _ _ => sim_size im
  | SimFit _ size => size
  | SimCrop _ (x0, y0, x1, y1) => (x1 - x0, y1 - y0)
  | SimText im _ _ => sim_size im
  | SimSvg _ size => (size, size)
  | SimColor im _ => sim_size im
  | SimKey _ => (72, 72)
  | SimScaled _ _ _ => (72, 72)
  end.

(** Resampling to a size with a non-positive side raises. *)
Definition sim_fit (im : SimImage) (size : Z * Z) : outcome SimImage :=
  if bool_decide (0 < size.1 /\ 0 < size.2) then Ok (SimFit im size)
  else Raise ValueError.

Definition sim_missing (path : string) : bool :=
  bool_decide (path = "assets/missing.svg"%string)
  || bool_decide (path = "assets/missing.png"%string).

Global Instance sim_image_ops : ImageOps SimImage := {|
  image_width im := (sim_size im).1;
  image_height im := (sim_size im).2;
  Image_open path := if sim_missing path then None else Some (SimOpened path);
  Image_new := SimNew;
  Image_paste im src box mask :=
    match mask with
    | None => SimPaste im src box
    | Some m => SimPasteMask im src box m
    end;
  ImageOps_fit := sim_fit;
  Image_crop := SimCrop;
  Font := string * Z;
  findfont family := Some ("fonts/" +:+ family +:+ ".ttf");
  ImageFont_truetype file size := Some (file, size);
  draw_text := SimText;
  image_from_svg path size :=
    if sim_missing path then None else Some (SimSvg path size);
  color_image := SimColor;
  path_join a b := a +:+ "/" +:+ b;
|}.

Record SimDeck : Type := {
  sim_open : bool;
  sim_fuse : option nat;
}.

(** One transport exchange: fails when the fuse is at zero (and clears
    it), otherwise succeeds and burns the fuse down by one. *)
Definition sim_io (d : SimDeck) : bool * SimDeck :=
  match sim_fuse d with
  | None => (true, d)
  | Some O => (false, {| sim_open := sim_open d; sim_fuse := None |})
  | Some (S n) => (true, {| sim_open := sim_open d; sim_fuse := Some n |})
  end.

Definition sim_set_open (b : bool) (d : SimDeck) : bool * SimDeck :=
  let '(ok, d') := sim_io d in
  (ok, if ok then {| sim_open := b; sim_fuse := sim_fuse d' |} else d').

Global Instance sim_deck_ops : DeckOps SimDeck SimImage SimNative := {|
  key_count := 8%nat;
  key_layout := (2, 4);
  key_image_size := (72, 72);
  deck_is_open := sim_open;
  deck_open := sim_set_open true;
  deck_close := sim_set_open false;
  deck_get_serial_number := sim_io;
  deck_get_firmware_version := sim_io;
  deck_set_brightness _ := sim_io;
  deck_set_key_callback := sim_io;
  deck_set_key_image _ _ := sim_io;
  create_key_image := SimKey;
  create_scaled_key_image := SimScaled;
  to_native_key_format := SimBytes;
|}.

Definition sim_deck (fuse : option nat) : SimDeck :=
  {| sim_open := false; sim_fuse := fuse |}.

(** A controller on a simulated deck, as [__init__] leaves it. *)
Definition sim_controller (fuse : option nat)
  : outcome (StreamDeckController SimDeck SimImage SimNative) :=
  init (sim_deck fuse) "assets".

(** The same, as a state (the simulated assets load, so [__init__]
    returns). *)
Definition sim_start (fuse : option nat)
  : StreamDeckController SimDeck SimImage SimNative :=
  match sim_controller fuse with
  | Ok s => s
  | Raise _ =>
      {| _deck := sim_deck fuse; _assets_path := "assets";
         _default_background := ∅; _icon_cache := ∅;
         _last_images := []; _default_font := ("", 0); calls := [] |}
  end.

Definition gear_on : ButtonConfig :=
  {| icon := "gear"; label := "On"; selected := true |}.
Definition gear_off : ButtonConfig :=
  {| icon := "gear"; label := "Off"; selected := false |}.
Definition plain : ButtonConfig :=
  {| icon := ""; label := "Idle"; selected := false |}.

(** What the simulated renderer returns for [gear_on]. *)
Definition gear_on_native : SimNative :=
  SimBytes
    (SimText
       (SimScaled (SimColor (SimSvg "assets/gear.svg" 48) "#FFFFFF")
          [0; 0; 20; 0] "#9D2235") "On" ("fonts/Arial.ttf", 14)).

Definition config_connected : ConfigStore :=
  {| remote_connected := true; buttons := [Some gear_on; None; Some plain] |}.
Definition config_disconnected : ConfigStore :=
  {| remote_connected := false; buttons := [Some gear_on; None; Some plain] |}.
Definition config_disconnected' : ConfigStore :=
  {| remote_connected := false; buttons := [Some gear_off] |}.

(** A simulated session whose transport fails on the ninth exchange of
    its close: eight background writes, then [deck.close()]. *)
Definition sim_failing_close : StreamDeckController SimDeck SimImage SimNative :=
  with_deck {| sim_open := true; sim_fuse := Some 8%nat |}
    (open config_connected (sim_start None)).2.

(** The simulated image library with no asset on disk. *)
Definition sim_no_assets : ImageOps SimImage := {|
  image_width im := (sim_size im).1;
  image_height im := (sim_size im).2;
  Image_open _ := None;
  Image_new := SimNew;
  Image_paste im src box mask :=
    match mask with
    | None => SimPaste im src box
    | Some m => SimPasteMask im src box m
    end;
  ImageOps_fit := sim_fit;
  Image_crop := SimCrop;
  Font := string * Z;
  findfont family := Some ("fonts/" +:+ family +:+ ".ttf");
  ImageFont_truetype file size := Some (file, size);
  draw_text := SimText;
  image_from_svg _ _ := None;
  color_image := SimColor;
  path_join a b := a +:+ "/" +:+ b;
|}.

(** A button whose icon is not among the simulated assets. *)
Definition missing_button : ButtonConfig :=
  {| icon := "missing"; label := "Gone"; selected := false |}.

(** A configuration whose second button has an icon that does not load. *)
Definition config_missing : ConfigStore :=
  {| remote_connected := true;
     buttons := [Some gear_on; Some missing_button; Some plain] |}.

(** An open simulated deck whose transport fails on the fourth exchange:
    the background sweep of a close fails at tile 3. *)
Definition sim_failing_sweep : StreamDeckController SimDeck SimImage SimNative :=
  with_deck {| sim_open := true; sim_fuse := Some 3%nat |} (sim_start None).

(** A simulated deck that reports two rows of no columns. *)
Definition sim_deck_no_columns : DeckOps SimDeck SimImage SimNative := {|
  key_count := 8%nat;
  key_layout := (2, 0);
  key_image_size := (72, 72);
  deck_is_open := sim_open;
  deck_open := sim_set_open true;
  deck_close := sim_set_open false;
  deck_get_serial_number := sim_io;
  deck_get_firmware_version := sim_io;
  deck_set_brightness _ := sim_io;
  deck_set_key_callback := sim_io;
  deck_set_key_image _ _ := sim_io;
  create_key_image := SimKey;
  create_scaled_key_image := SimScaled;
  to_native_key_format := SimBytes;
|}.

(** [config_connected] with its first button deselected and relabelled. *)
Definition config_toggled : ConfigStore :=
  {| remote_connected := true; buttons := [Some gear_off; None; Some plain] |}.

(** * Properties *)

(** ** Python primitives *)

Lemma py_index_range {A} (l : list A) (i : Z) (j : nat) :
  py_index l i = Some j -> (j < length l)%nat.
Proof.
  unfold py_index. cbv zeta.
  destruct (bool_decide (i < 0)); case_bool_decide; intros [= <-]; lia.
Qed.

Lemma py_index_of_nat {A} (l : list A) (k : nat) :
  (k < length l)%nat -> py_index l (Z.of_nat k) = Some k.
Proof.
  intros Hk. unfold py_index. cbv zeta.
  rewrite (bool_decide_eq_false_2 (Z.of_nat k < 0)) by lia.
  rewrite bool_decide_eq_true_2 by lia.
  by rewrite Nat2Z.id.
Qed.

Lemma py_index_of_nat_ge {A} (l : list A) (k : nat) :
  (length l <= k)%nat -> py_index l (Z.of_nat k) = None.
Proof.
  intros Hk. unfold py_index. cbv zeta.
  rewrite (bool_decide_eq_false_2 (Z.of_nat k < 0)) by lia.
  by rewrite bool_decide_eq_false_2 by lia.
Qed.

Lemma py_getitem_Ok {A} (l : list A) (i : Z) (x : A) :
  py_getitem l i = Ok x <-> exists j, py_index l i = Some j /\ l !! j = Some x.
Proof.
  unfold py_getitem. split.
  - destruct (py_index l i) as [j|]; [|done].
    destruct (l !! j) eqn:E; [|done]. intros [= <-]. eauto.
  - intros (j & -> & ->). done.
Qed.

Lemma py_getitem_of_nat {A} (l : list A) (k : nat) (x : A) :
  l !! k = Some x -> py_getitem l (Z.of_nat k) = Ok x.
Proof.
  intros Hx. apply py_getitem_Ok. exists k. split; [|done].
  apply py_index_of_nat. by eapply lookup_lt_Some.
Qed.

Lemma py_getitem_exn {A} (l : list A) (i : Z) (e : exn) :
  py_getitem l i = Raise e -> e = IndexError.
Proof.
  unfold py_getitem. destruct (py_index l i) as [j|]; [|congruence].
  destruct (l !! j); congruence.
Qed.

Lemma py_setitem_length {A} (l l' : list A) (i : Z) (x : A) :
  py_setitem l i x = Ok l' -> length l' = length l.
Proof.
  unfold py_setitem. destruct (py_index l i); [|done].
  intros [= <-]. apply length_insert.
Qed.

Lemma py_setitem_getitem {A} (l l' : list A) (i : Z) (x : A) :
  py_setitem l i x = Ok l' -> py_getitem l' i = Ok x.
Proof.
  unfold py_setitem. destruct (py_index l i) as [j|] eqn:E; [|done].
  intros [= <-]. apply py_getitem_Ok. exists j. split.
  - unfold py_index in *. by rewrite length_insert.
  - apply list_lookup_insert_eq. by eapply py_index_range.
Qed.

Lemma range_S (n : nat) : range (S n) = range n ++ [Z.of_nat n].
Proof. unfold range. by rewrite seq_S, fmap_app. Qed.

(** ** Geometry *)

Lemma full_deck_image_size_eq (rows cols tileWidth tileHeight : Z) :
  full_deck_image_size (rows, cols) (tileWidth, tileHeight) =
  (cols * tileWidth + (cols - 1) * KEY_SPACING.1,
   rows * tileHeight + (rows - 1) * KEY_SPACING.2).
Proof. unfold full_deck_image_size. simpl. f_equal; lia. Qed.

Lemma region_eq (rows cols tileWidth tileHeight i : Z) :
  cols <> 0 ->
  region (rows, cols) (tileWidth, tileHeight) i =
  Ok ((i `mod` cols) * (tileWidth + KEY_SPACING.1),
      (i `div` cols) * (tileHeight + KEY_SPACING.2),
      (i `mod` cols) * (tileWidth + KEY_SPACING.1) + tileWidth,
      (i `div` cols) * (tileHeight + KEY_SPACING.2) + tileHeight).
Proof.
  intros Hc. unfold region, py_floordiv, py_mod. simpl.
  by rewrite bool_decide_eq_false_2.
Qed.

(** C3.  The full-panel size is
    (cols*tileWidth + (cols-1)*spacingX, rows*tileHeight + (rows-1)*spacingY)
    and the rectangle of tile [i] starts at
    (col*(tileWidth+spacingX), row*(tileHeight+spacingY)), with
    row = i div cols and col = i mod cols, and ends at start +
    (tileWidth, tileHeight); the spacing is the module's [KEY_SPACING].
    For 2 rows of 4 tiles of 72x72 with spacing (36,36) the panel is
    (396,180) and tile 5 occupies (108,108)-(180,180). *)
Theorem C3_panel_size_and_tile_rect (rows cols tileWidth tileHeight i : Z) :
  cols <> 0 ->
  let spacingX := KEY_SPACING.1 in
  let spacingY := KEY_SPACING.2 in
  let row := i `div` cols in
  let col := i `mod` cols in
  full_deck_image_size (rows, cols) (tileWidth, tileHeight) =
    (cols * tileWidth + (cols - 1) * spacingX,
     rows * tileHeight + (rows - 1) * spacingY)
  /\ region (rows, cols) (tileWidth, tileHeight) i =
       Ok (col * (tileWidth + spacingX), row * (tileHeight + spacingY),
           col * (tileWidth + spacingX) + tileWidth,
           row * (tileHeight + spacingY) + tileHeight)
  /\ KEY_SPACING = (36, 36)
  /\ full_deck_image_size (2, 4) (72, 72) = (396, 180)
  /\ region (2, 4) (72, 72) 5 = Ok (108, 108, 180, 180).
Proof.
  intros Hc. cbv zeta. split; [apply full_deck_image_size_eq|].
  split; [by apply region_eq|]. by repeat split.
Qed.

Lemma C3_witness :
  full_deck_image_size (3, 5) (72, 72) = (504, 288)
  /\ region (3, 5) (72, 72) 13 = Ok (324, 216, 396, 288).
Proof.
  destruct (C3_panel_size_and_tile_rect 3 5 72 72 13) as (H1 & H2 & _);
    [lia|].
  split; [exact H1 | exact H2].
Defined.

(** C6, as stated, fails: index 8 lies outside [0, 2*4) and the rectangle
    computation returns a rectangle for it instead of IndexOutOfRange. *)
Lemma C6_counterexample :
  ~ (forall rows cols tileWidth tileHeight i : Z,
        ~ (0 <= i < rows * cols) ->
        region (rows, cols) (tileWidth, tileHeight) i = Raise IndexError)
  /\ region (2, 4) (72, 72) 8 = Ok (0, 216, 72, 288)
  /\ region (2, 4) (72, 72) (-1) = Ok (324, -108, 396, -36).
Proof.
  split; [|by split].
  intros H. specialize (H 2 4 72 72 8). discriminate H. lia.
Qed.

(** C6, amended.  The rectangle computation has no range check: for
    every index, inside [0, rows*cols) or not, it returns the rectangle
    starting at (col*(tileWidth+spacingX), row*(tileHeight+spacingY)) with
    extent (tileWidth, tileHeight), row and col being the floor quotient
    and remainder of the index by cols; it never raises IndexError, and
    fails only by ZeroDivisionError, exactly when cols = 0. *)
Theorem C6_tile_rect_unchecked (rows cols tileWidth tileHeight i : Z) :
  (cols <> 0 ->
   exists x0 y0,
     region (rows, cols) (tileWidth, tileHeight) i =
       Ok (x0, y0, x0 + tileWidth, y0 + tileHeight)
     /\ x0 = (i `mod` cols) * (tileWidth + KEY_SPACING.1)
     /\ y0 = (i `div` cols) * (tileHeight + KEY_SPACING.2))
  /\ (cols = 0 ->
      region (rows, cols) (tileWidth, tileHeight) i = Raise ZeroDivisionError)
  /\ region (rows, cols) (tileWidth, tileHeight) i <> Raise IndexError.
Proof.
  split; [|split].
  - intros Hc. eexists _, _. split; [by apply region_eq|done].
  - intros ->. done.
  - destruct (decide (cols = 0)) as [->|Hc]; [done|].
    by rewrite region_eq.
Qed.

Lemma C6_witness :
  (exists x0 y0,
      region (2, 4) (72, 72) 11 = Ok (x0, y0, x0 + 72, y0 + 72)
      /\ x0 = 324 /\ y0 = 216)
  /\ region (2, 0) (72, 72) 3 = Raise ZeroDivisionError.
Proof.
  split.
  - destruct (C6_tile_rect_unchecked 2 4 72 72 11) as (H & _ & _).
    destruct H as (x0 & y0 & H0 & Hx & Hy); [lia|].
    exists x0, y0. split; [exact H0|]. split; [exact Hx | exact Hy].
  - destruct (C6_tile_rect_unchecked 2 0 72 72 3) as (_ & H & _).
    apply H. reflexivity.
Defined.

(** ** The write suppressor *)

Section Suppressor.
Context {D Image Native : Type}.
Context `{!ImageOps Image} `{!DeckOps D Image Native}.

Local Abbreviation Ctl := (StreamDeckController D Image Native).
Local Open Scope method_scope.

Lemma maybeWrite_unfold (key : Z) (candidate : tag) (image : Native) (s : Ctl) :
  maybeWrite key candidate image s =
  match py_getitem (_last_images s) key with
  | Raise e => (Raise e, s)
  | Ok stored =>
      if decide (stored ≠ candidate) then
        if (deck_set_key_image key image (_deck s)).1 then
          match py_setitem (_last_images s) key candidate with
          | Ok l => (Ok tt, with_last_images l (after_write key image s))
          | Raise e => (Raise e, after_write key image s)
          end
        else (Raise TransportError, after_write key image s)
      else (Ok tt, s)
  end.
Proof.
  unfold maybeWrite, last_images_get, last_images_set, deck_write, deck_call,
    after_write, bind, get, lift, modify, ret.
  destruct (py_getitem (_last_images s) key) as [stored|e]; [|done].
  destruct (decide (stored ≠ candidate)); [|done].
  destruct (deck_set_key_image key image (_deck s)) as [[] d]; simpl; [|done].
  by destruct (py_setitem (_last_images s) key candidate).
Qed.

(** The three inlined copies are the specification's [maybeWrite]. *)
Lemma render_all_keys_body_maybeWrite (key_images : gmap Z Native) (k : Z) :
  render_all_keys_body key_images k =
  (key_image <- lift (dict_getitem key_images k) ;;
   maybeWrite k TAG_RENDER_ALL key_image).
Proof. reflexivity. Qed.

Lemma set_key_empty_maybeWrite (key : Z) :
  set_key_empty key =
  maybeWrite key TAG_EMPTY_KEY
    (to_native_key_format D (create_key_image D NOT_ACTIVE_COLOR)).
Proof. reflexivity. Qed.

Lemma set_key_image_maybeWrite (key : Z) (button : ButtonConfig) :
  set_key_image key button =
  (image <- render_key (icon button) (label button) (button_background button) ;;
   maybeWrite key (button_tag button) image).
Proof. reflexivity. Qed.

(** Equal tags: nothing happens. *)
Lemma maybeWrite_same (key : Z) (candidate : tag) (image : Native) (s : Ctl) :
  py_getitem (_last_images s) key = Ok candidate ->
  maybeWrite key candidate image s = (Ok tt, s).
Proof.
  intros Hget. rewrite maybeWrite_unfold, Hget.
  by destruct (decide (candidate ≠ candidate)).
Qed.

(** Different tags and a write that succeeds: one write, the candidate
    tag is stored. *)
Lemma maybeWrite_diff (key : Z) (candidate stored : tag) (image : Native) (s : Ctl) :
  py_getitem (_last_images s) key = Ok stored ->
  stored ≠ candidate ->
  (deck_set_key_image key image (_deck s)).1 = true ->
  exists l,
    py_setitem (_last_images s) key candidate = Ok l
    /\ maybeWrite key candidate image s =
         (Ok tt, with_last_images l (after_write key image s)).
Proof.
  intros Hget Hne Hok. rewrite maybeWrite_unfold, Hget, Hok.
  destruct (decide (stored ≠ candidate)); [|done].
  apply py_getitem_Ok in Hget as (j & Hj & _).
  exists (<[j:=candidate]> (_last_images s)).
  unfold py_setitem. by rewrite Hj.
Qed.

(** Different tags and a write that fails: the error propagates and the
    stored tags are those from before the call. *)
Lemma maybeWrite_fail (key : Z) (candidate stored : tag) (image : Native) (s : Ctl) :
  py_getitem (_last_images s) key = Ok stored ->
  stored ≠ candidate ->
  (deck_set_key_image key image (_deck s)).1 = false ->
  maybeWrite key candidate image s =
    (Raise TransportError, after_write key image s).
Proof.
  intros Hget Hne Hok. rewrite maybeWrite_unfold, Hget, Hok.
  by destruct (decide (stored ≠ candidate)).
Qed.

End Suppressor.

(** ** The tile renderer *)

Section Renderer.
Context {D Image Native : Type}.
Context `{!ImageOps Image} `{!DeckOps D Image Native}.

Local Abbreviation Ctl := (StreamDeckController D Image Native).
Local Open Scope method_scope.

Lemma render_key_hit (i l b : string) (cached : Image) (s : Ctl) :
  _icon_cache s !! (i, l, b) = Some cached ->
  render_key i l b s = (Ok (to_native_key_format D cached), s).
Proof.
  intros Hc. unfold render_key, bind, get, ret. by rewrite Hc.
Qed.

Lemma render_key_miss (i l b : string) (s : Ctl) :
  _icon_cache s !! (i, l, b) = None ->
  render_key i l b s =
  let s0 := if decide (i ≠ ""%string)
            then with_call
                   (EvImageFromSvg (path_join (_assets_path s) (i +:+ ".svg"))) s
            else s in
  match composed (_assets_path s) i l b (_default_font s) with
  | Some image =>
      (Ok (to_native_key_format D image),
       with_icon_cache (<[(i, l, b):=image]> (_icon_cache s)) s0)
  | None => (Raise AssetError, s0)
  end.
Proof.
  intros Hc. unfold render_key, composed, bind, get, ret, load_svg, modify.
  rewrite Hc. destruct (decide (i ≠ ""%string)); [|done].
  by destruct (image_from_svg _ _).
Qed.

(** What any run of [render_key] leaves alone. *)
Lemma render_key_frame (i l b : string) (s : Ctl) :
  let r := render_key i l b s in
  _deck r.2 = _deck s
  /\ _last_images r.2 = _last_images s
  /\ _default_background r.2 = _default_background s
  /\ _assets_path r.2 = _assets_path s
  /\ writes r.2 = writes s
  /\ written_keys r.2 = written_keys s
  /\ (r.1 = Raise AssetError \/ exists out, r.1 = Ok out).
Proof.
  cbv zeta. destruct (_icon_cache s !! (i, l, b)) as [c|] eqn:Hc.
  - rewrite (render_key_hit _ _ _ c) by done. repeat split; eauto.
  - rewrite render_key_miss by done. cbv zeta.
    destruct (composed _ _ _ _ _); destruct (decide (i ≠ ""%string));
      repeat split; eauto.
Qed.

(** A successful run leaves the key in the cache, holding the image
    whose native form was returned. *)
Lemma render_key_cached (i l b : string) (out : Native) (s s1 : Ctl) :
  render_key i l b s = (Ok out, s1) ->
  exists cached,
    _icon_cache s1 !! (i, l, b) = Some cached
    /\ out = to_native_key_format D cached.
Proof.
  destruct (_icon_cache s !! (i, l, b)) as [c|] eqn:Hc.
  - rewrite (render_key_hit _ _ _ c) by done. intros [= <- <-]. eauto.
  - rewrite render_key_miss by done. cbv zeta.
    destruct (composed _ _ _ _ _) as [image|]; [|done].
    intros [= <- <-]. exists image. split; [|done].
    destruct (decide (i ≠ ""%string)); apply lookup_insert_eq.
Qed.

(** At most one asset load per call, none on a cache hit. *)
Lemma render_key_asset_loads (i l b : string) (s : Ctl) :
  let r := render_key i l b s in
  (is_Some (_icon_cache s !! (i, l, b)) -> asset_loads r.2 = asset_loads s)
  /\ (length (asset_loads r.2) <= S (length (asset_loads s)))%nat.
Proof.
  cbv zeta. destruct (_icon_cache s !! (i, l, b)) as [c|] eqn:Hc.
  - rewrite (render_key_hit _ _ _ c) by done. simpl. split; [done|lia].
  - rewrite render_key_miss by done. cbv zeta.
    split; [by intros [? ?]|].
    destruct (composed _ _ _ _ _); destruct (decide (i ≠ ""%string));
      simpl; unfold asset_loads; simpl; lia.
Qed.

(** C5.  [render_key] is idempotent under an identical render key: if a
    call with (icon, label, background) returns, a second call with the
    same key returns the same native image and leaves the whole state
    as it was, so the cache still holds its one entry for that key (the
    image whose native form both calls returned, the cache having grown
    by at most that entry) and no asset is loaded again: both calls
    together load at most one asset. *)
Theorem C5_render_key_idempotent (i l b : string) (out : Native) (s s1 : Ctl) :
  render_key i l b s = (Ok out, s1) ->
  render_key i l b s1 = (Ok out, s1)
  /\ (exists cached,
        _icon_cache s1 !! (i, l, b) = Some cached
        /\ to_native_key_format D cached = out)
  /\ _icon_cache (render_key i l b s1).2 = _icon_cache s1
  /\ (size (_icon_cache s1) <= S (size (_icon_cache s)))%nat
  /\ asset_loads (render_key i l b s1).2 = asset_loads s1
  /\ (length (asset_loads (render_key i l b s1).2)
      <= S (length (asset_loads s)))%nat.
Proof.
  intros Hr.
  destruct (render_key_cached _ _ _ _ _ _ Hr) as (cached & Hc & ->).
  assert (render_key i l b s1 = (Ok (to_native_key_format D cached), s1)) as H2
    by by apply render_key_hit.
  rewrite H2. simpl. split; [done|]. split; [eauto|]. split; [done|].
  split; [|split; [done|]].
  - destruct (_icon_cache s !! (i, l, b)) as [c|] eqn:Hs.
    + rewrite (render_key_hit _ _ _ c) in Hr by done.
      injection Hr as _ <-. lia.
    + rewrite render_key_miss in Hr by done. cbv zeta in Hr.
      destruct (composed _ _ _ _ _) as [image|]; [|done].
      injection Hr as _ <-.
      destruct (decide (i ≠ ""%string)); simpl;
        by rewrite map_size_insert_None.
  - pose proof (render_key_asset_loads i l b s) as [_ Hle].
    by rewrite Hr in Hle.
Qed.

End Renderer.

Lemma C5_witness :
  let s1 := (render_key "gear" "On" ACTIVE_COLOR (sim_start None)).2 in
  render_key "gear" "On" ACTIVE_COLOR s1 = (Ok gear_on_native, s1).
Proof.
  cbv zeta.
  refine (proj1 (C5_render_key_idempotent _ _ _ _ (sim_start None) _ _)).
  vm_compute. reflexivity.
Defined.

(** ** Tile updates *)

Section Tiles.
Context {D Image Native : Type}.
Context `{!ImageOps Image} `{!DeckOps D Image Native}.

Local Abbreviation Ctl := (StreamDeckController D Image Native).
Local Open Scope method_scope.

(** With a stale stored tag the write is attempted, whatever comes of
    it. *)
Lemma maybeWrite_attempt (key : Z) (candidate stored : tag) (image : Native)
    (s : Ctl) :
  py_getitem (_last_images s) key = Ok stored ->
  stored ≠ candidate ->
  writes (maybeWrite key candidate image s).2
    = EvSetKeyImage key image :: writes s.
Proof.
  intros Hget Hne. rewrite maybeWrite_unfold, Hget.
  destruct (decide (stored ≠ candidate)); [|done].
  destruct (deck_set_key_image key image (_deck s)).1; [|done].
  by destruct (py_setitem (_last_images s) key candidate).
Qed.

Lemma render_all_keys_body_found (key_images : gmap Z Native) (k : Z)
    (image : Native) :
  key_images !! k = Some image ->
  render_all_keys_body key_images k = maybeWrite k TAG_RENDER_ALL image.
Proof.
  intros Hk. rewrite render_all_keys_body_maybeWrite.
  unfold bind at 1, lift, dict_getitem. by rewrite Hk.
Qed.

Lemma render_all_keys_body_missing (key_images : gmap Z Native) (k : Z) :
  key_images !! k = None ->
  render_all_keys_body key_images k = raise KeyError.
Proof.
  intros Hk. rewrite render_all_keys_body_maybeWrite.
  unfold bind at 1, lift, dict_getitem. by rewrite Hk.
Qed.

Lemma set_key_image_run (key : Z) (button : ButtonConfig) (image : Native)
    (s s0 : Ctl) :
  render_key (icon button) (label button) (button_background button) s
    = (Ok image, s0) ->
  set_key_image key button s = maybeWrite key (button_tag button) image s0
  /\ _deck s0 = _deck s
  /\ _last_images s0 = _last_images s
  /\ writes s0 = writes s.
Proof.
  intros Hr. rewrite set_key_image_maybeWrite. unfold bind at 1. rewrite Hr.
  pose proof (render_key_frame (icon button) (label button)
                (button_background button) s) as Hf.
  cbv zeta in Hf. rewrite Hr in Hf. simpl in Hf.
  destruct Hf as (Hd & Hl & _ & _ & Hw & _). done.
Qed.

Lemma set_key_image_render_fail (key : Z) (button : ButtonConfig) (e : exn)
    (s s0 : Ctl) :
  render_key (icon button) (label button) (button_background button) s
    = (Raise e, s0) ->
  set_key_image key button s = (Raise e, s0)
  /\ e = AssetError
  /\ _last_images s0 = _last_images s
  /\ writes s0 = writes s.
Proof.
  intros Hr. rewrite set_key_image_maybeWrite. unfold bind at 1. rewrite Hr.
  pose proof (render_key_frame (icon button) (label button)
                (button_background button) s) as Hf.
  cbv zeta in Hf. rewrite Hr in Hf. simpl in Hf.
  destruct Hf as (_ & Hl & _ & _ & Hw & _ & [He|[? He]]); [|done].
  by injection He as ->.
Qed.

(** Once [set_key_image] got as far as the device, the render key is in
    the cache, and stays there. *)
Lemma set_key_image_again (key : Z) (button : ButtonConfig) (image : Native)
    (s s0 s1 : Ctl) :
  render_key (icon button) (label button) (button_background button) s
    = (Ok image, s0) ->
  _icon_cache s1 = _icon_cache s0 ->
  set_key_image key button s1 = maybeWrite key (button_tag button) image s1.
Proof.
  intros Hr Hc.
  destruct (render_key_cached _ _ _ _ _ _ Hr) as (cached & Hin & ->).
  rewrite set_key_image_maybeWrite. unfold bind at 1.
  rewrite (render_key_hit _ _ _ cached); [done|]. by rewrite Hc.
Qed.

(** C1.  Per tile index and candidate tag the write suppressor writes
    at most once per transition.  For each of its copies
    ([set_key_image], the loop body of [render_all_keys], and
    [set_key_empty]): if the candidate tag equals the stored tag of the
    tile, no hardware write occurs and the stored tags are unchanged;
    if it differs (and the device accepts the write), exactly one write
    is issued and the stored tag of the tile becomes the candidate tag;
    presenting the same candidate again then does nothing, so that the
    same tag twice in a row yields exactly one hardware write. *)
Theorem C1_write_suppressor (s : Ctl) (key : Z) (stored : tag) :
  py_getitem (_last_images s) key = Ok stored ->
  (forall button : ButtonConfig,
      (stored = button_tag button ->
       _last_images (set_key_image key button s).2 = _last_images s
       /\ writes (set_key_image key button s).2 = writes s)
      /\ (stored ≠ button_tag button ->
          forall image s0,
            render_key (icon button) (label button) (button_background button) s
              = (Ok image, s0) ->
            (deck_set_key_image key image (_deck s)).1 = true ->
            exists s1,
              set_key_image key button s = (Ok tt, s1)
              /\ writes s1 = EvSetKeyImage key image :: writes s
              /\ py_setitem (_last_images s) key (button_tag button)
                   = Ok (_last_images s1)
              /\ set_key_image key button s1 = (Ok tt, s1)))
  /\ (forall (key_images : gmap Z Native) (image : Native),
        key_images !! key = Some image ->
        (stored = TAG_RENDER_ALL ->
         render_all_keys_body key_images key s = (Ok tt, s))
        /\ (stored ≠ TAG_RENDER_ALL ->
            (deck_set_key_image key image (_deck s)).1 = true ->
            exists s1,
              render_all_keys_body key_images key s = (Ok tt, s1)
              /\ writes s1 = EvSetKeyImage key image :: writes s
              /\ py_setitem (_last_images s) key TAG_RENDER_ALL
                   = Ok (_last_images s1)
              /\ render_all_keys_body key_images key s1 = (Ok tt, s1)))
  /\ (let image := to_native_key_format D (create_key_image D NOT_ACTIVE_COLOR) in
      (stored = TAG_EMPTY_KEY -> set_key_empty key s = (Ok tt, s))
      /\ (stored ≠ TAG_EMPTY_KEY ->
          (deck_set_key_image key image (_deck s)).1 = true ->
          exists s1,
            set_key_empty key s = (Ok tt, s1)
            /\ writes s1 = EvSetKeyImage key image :: writes s
            /\ py_setitem (_last_images s) key TAG_EMPTY_KEY
                 = Ok (_last_images s1)
            /\ set_key_empty key s1 = (Ok tt, s1))).
Proof.
  intros Hget. split; [|split].
  - intros button. split.
    + intros ->.
      destruct (render_key (icon button) (label button)
                  (button_background button) s) as [[image|e] s0] eqn:Hr.
      * destruct (set_key_image_run key _ _ _ _ Hr) as (-> & _ & Hl & Hw).
        rewrite maybeWrite_same by by rewrite Hl. done.
      * destruct (set_key_image_render_fail key _ _ _ _ Hr)
          as (-> & _ & Hl & Hw).
        done.
    + intros Hne image s0 Hr Hok.
      destruct (set_key_image_run key _ _ _ _ Hr) as (-> & Hd & Hl & Hw).
      rewrite <- Hd in Hok. rewrite <- Hl in Hget |- *.
      destruct (maybeWrite_diff key _ _ image s0 Hget Hne Hok) as (l & Hset & Hm).
      eexists. split; [exact Hm|]. split; [by rewrite <- Hw|].
      split; [done|].
      rewrite (set_key_image_again key button image s s0) by done.
      apply maybeWrite_same. simpl. by eapply py_setitem_getitem.
  - intros key_images image Hk.
    rewrite (render_all_keys_body_found _ _ _ Hk). split.
    + intros ->. by apply maybeWrite_same.
    + intros Hne Hok.
      destruct (maybeWrite_diff key _ _ image s Hget Hne Hok) as (l & Hset & Hm).
      eexists. split; [exact Hm|]. split; [done|]. split; [done|].
      apply maybeWrite_same. simpl. by eapply py_setitem_getitem.
  - cbv zeta. rewrite set_key_empty_maybeWrite. split.
    + intros ->. by apply maybeWrite_same.
    + intros Hne Hok.
      destruct (maybeWrite_diff key _ _ _ s Hget Hne Hok) as (l & Hset & Hm).
      eexists. split; [exact Hm|]. split; [done|]. split; [done|].
      apply maybeWrite_same. simpl. by eapply py_setitem_getitem.
Qed.

(** C7.  If the device write fails with a transport error during a tile
    update (the stored tag differs from the candidate, so the write is
    attempted, and [deck.set_key_image] raises), the update raises that
    error and the stored tags are those from before the call: the tag of
    the tile is not updated.  Presenting the same candidate again
    therefore attempts the same write again.  This holds for each of the
    three copies of the suppressor. *)
Theorem C7_failed_write_keeps_tag (s : Ctl) (key : Z) (stored : tag) :
  py_getitem (_last_images s) key = Ok stored ->
  (forall (button : ButtonConfig) (image : Native) (s0 : Ctl),
      render_key (icon button) (label button) (button_background button) s
        = (Ok image, s0) ->
      stored ≠ button_tag button ->
      (deck_set_key_image key image (_deck s)).1 = false ->
      set_key_image key button s
        = (Raise TransportError, after_write key image s0)
      /\ _last_images (after_write key image s0) = _last_images s
      /\ writes (after_write key image s0) = EvSetKeyImage key image :: writes s
      /\ writes (set_key_image key button (after_write key image s0)).2
           = EvSetKeyImage key image :: writes (after_write key image s0))
  /\ (let image := to_native_key_format D (create_key_image D NOT_ACTIVE_COLOR) in
      stored ≠ TAG_EMPTY_KEY ->
      (deck_set_key_image key image (_deck s)).1 = false ->
      set_key_empty key s = (Raise TransportError, after_write key image s)
      /\ _last_images (after_write key image s) = _last_images s
      /\ writes (after_write key image s) = EvSetKeyImage key image :: writes s
      /\ writes (set_key_empty key (after_write key image s)).2
           = EvSetKeyImage key image :: writes (after_write key image s))
  /\ (forall (key_images : gmap Z Native) (image : Native),
        key_images !! key = Some image ->
        stored ≠ TAG_RENDER_ALL ->
        (deck_set_key_image key image (_deck s)).1 = false ->
        render_all_keys_body key_images key s
          = (Raise TransportError, after_write key image s)
        /\ _last_images (after_write key image s) = _last_images s
        /\ writes (after_write key image s) = EvSetKeyImage key image :: writes s
        /\ writes (render_all_keys_body key_images key (after_write key image s)).2
             = EvSetKeyImage key image :: writes (after_write key image s)).
Proof.
  intros Hget. split; [|split].
  - intros button image s0 Hr Hne Hfail.
    destruct (set_key_image_run key _ _ _ _ Hr) as (Heq & Hd & Hl & Hw).
    rewrite Heq. rewrite <- Hd in Hfail. rewrite <- Hl in Hget.
    rewrite (maybeWrite_fail key _ stored image s0 Hget Hne Hfail).
    split; [done|]. split; [done|].
    split; [by rewrite <- Hw|].
    rewrite (set_key_image_again key button image s s0) by done.
    by eapply maybeWrite_attempt.
  - cbv zeta. intros Hne Hfail. rewrite set_key_empty_maybeWrite.
    rewrite (maybeWrite_fail key _ stored _ s Hget Hne Hfail).
    split; [done|]. split; [done|]. split; [done|].
    by eapply maybeWrite_attempt.
  - intros key_images image Hk Hne Hfail.
    rewrite (render_all_keys_body_found _ _ _ Hk).
    rewrite (maybeWrite_fail key _ stored image s Hget Hne Hfail).
    split; [done|]. split; [done|]. split; [done|].
    by eapply maybeWrite_attempt.
Qed.

End Tiles.

Lemma C1_witness :
  py_getitem (_last_images (sim_start None)) 2 = Ok TAG_NONE
  /\ exists s1,
       set_key_image 2 gear_on (sim_start None) = (Ok tt, s1)
       /\ py_setitem (_last_images (sim_start None)) 2 (button_tag gear_on)
            = Ok (_last_images s1)
       /\ set_key_image 2 gear_on s1 = (Ok tt, s1).
Proof.
  assert (py_getitem (_last_images (sim_start None)) 2 = Ok TAG_NONE) as Hget
    by (vm_compute; reflexivity).
  split; [exact Hget|].
  destruct (C1_write_suppressor (sim_start None) 2 TAG_NONE Hget) as (Himg & _ & _).
  destruct (Himg gear_on) as (_ & Hdiff).
  destruct (Hdiff ltac:(discriminate) gear_on_native
              (render_key "gear" "On" ACTIVE_COLOR (sim_start None)).2)
    as (s1 & H1 & _ & H2 & H3).
  - vm_compute. reflexivity.
  - vm_compute. reflexivity.
  - exists s1. split; [exact H1|]. split; [exact H2|exact H3].
Defined.

Lemma C7_witness :
  let s := sim_start (Some 0%nat) in
  let s0 := (render_key "gear" "On" ACTIVE_COLOR s).2 in
  set_key_image 3 gear_on s
    = (Raise TransportError, after_write 3 gear_on_native s0)
  /\ _last_images (after_write 3 gear_on_native s0) = _last_images s
  /\ writes (after_write 3 gear_on_native s0)
     = EvSetKeyImage 3 gear_on_native :: writes s
  /\ writes (set_key_image 3 gear_on (after_write 3 gear_on_native s0)).2
     = EvSetKeyImage 3 gear_on_native :: writes (after_write 3 gear_on_native s0).
Proof.
  cbv zeta.
  destruct (C7_failed_write_keeps_tag (sim_start (Some 0%nat)) 3 TAG_NONE)
    as (Himage & _ & _); [vm_compute; reflexivity|].
  apply (Himage gear_on gear_on_native).
  - vm_compute. reflexivity.
  - discriminate.
  - vm_compute. reflexivity.
Defined.

(** ** Loops over the tiles *)

Section Loops.
Context {D Image Native : Type}.
Context `{!ImageOps Image} `{!DeckOps D Image Native}.

Local Abbreviation Ctl := (StreamDeckController D Image Native).
Local Abbreviation Method := (M D Image Native).
Local Open Scope method_scope.

Lemma for_each_app {A} (l1 l2 : list A) (body : A -> Method unit) (s : Ctl) :
  for_each (l1 ++ l2) body s =
  match for_each l1 body s with
  | (Ok _, s1) => for_each l2 body s1
  | (Raise e, s1) => (Raise e, s1)
  end.
Proof.
  revert s. induction l1 as [|x l1 IH]; intros s; [done|].
  simpl. unfold bind. destruct (body x s) as [[[]|e] s0]; [apply IH|done].
Qed.

Lemma for_each_range_S (n : nat) (body : Z -> Method unit) (s : Ctl) :
  for_each (range (S n)) body s =
  match for_each (range n) body s with
  | (Ok _, s1) => body (Z.of_nat n) s1
  | (Raise e, s1) => (Raise e, s1)
  end.
Proof.
  rewrite range_S, for_each_app.
  destruct (for_each (range n) body s) as [[[]|e] s1]; [|done].
  simpl. unfold bind, ret.
  by destruct (body (Z.of_nat n) s1) as [[[]|e] s2].
Qed.

(** An error raised by the body at one tile is the outcome of the whole
    loop: nothing in the loop handles it. *)
Lemma for_each_range_raise (n m : nat) (body : Z -> Method unit) (e : exn)
    (s s1 s2 : Ctl) :
  (n < m)%nat ->
  for_each (range n) body s = (Ok tt, s1) ->
  body (Z.of_nat n) s1 = (Raise e, s2) ->
  for_each (range m) body s = (Raise e, s2).
Proof.
  intros Hlt Hpre Hbody.
  replace m with (S n + (m - S n))%nat by lia.
  unfold range. rewrite seq_app, fmap_app. fold (range (S n)).
  rewrite for_each_app, for_each_range_S, Hpre, Hbody. done.
Qed.

(** An invariant of the body is an invariant of the loop, and the loop
    raises only what the body raises. *)
Lemma for_each_range_inv (I : Ctl -> Prop) (G : exn -> Prop)
    (body : Z -> Method unit) (n : nat) :
  (forall (k : nat) (s : Ctl), (k < n)%nat -> I s ->
      I (body (Z.of_nat k) s).2
      /\ forall e, (body (Z.of_nat k) s).1 = Raise e -> G e) ->
  forall s : Ctl, I s ->
    I (for_each (range n) body s).2
    /\ forall e, (for_each (range n) body s).1 = Raise e -> G e.
Proof.
  intros Hbody. induction n as [|n IH]; intros s Hs; [by split|].
  rewrite for_each_range_S.
  destruct IH with (s := s) as [HI HG]; [intros; apply Hbody; [lia|done]|done|].
  destruct (for_each (range n) body s) as [[[]|e] s1]; simpl in *.
  - apply Hbody; [lia|done].
  - done.
Qed.

Lemma written_keys_writes (s : Ctl) :
  written_keys s = omap written_key (writes s).
Proof.
  unfold written_keys, writes. induction (calls s) as [|e l IH]; [done|].
  rewrite filter_cons.
  destruct (decide (is_write e = true)) as [Hw|Hw]; destruct e;
    simpl in *; try done; by f_equal.
Qed.

Section Sweep.
Variable body : Z -> Method unit.
Variable cand : nat -> tag.
Hypothesis Hstep : tile_step body cand.

(** The loop over the first [n] tiles. *)
Lemma sweep_frame (n : nat) (s : Ctl) :
  let r := for_each (range n) body s in
  length (_last_images r.2) = length (_last_images s)
  /\ _default_background r.2 = _default_background s
  /\ (forall j : nat, (n <= j)%nat ->
        _last_images r.2 !! j = _last_images s !! j)
  /\ (r.1 = Ok tt ->
      forall k : nat, (k < n)%nat -> _last_images r.2 !! k = Some (cand k)).
Proof.
  cbv zeta. induction n as [|n IH]; [by repeat split; intros; lia|].
  rewrite for_each_range_S.
  destruct IH as (Hlen & Hbg & Hrest & Hdone).
  destruct (for_each (range n) body s) as [[[]|e] s1]; simpl in *.
  - destruct (Hstep n s1) as (Hl & Hb & Ho & Hk & _). simpl in *.
    split; [congruence|]. split; [congruence|]. split.
    + intros j Hj. rewrite Ho by lia. apply Hrest. lia.
    + intros Hok k Hlt. destruct (decide (k = n)) as [->|Hne].
      * by apply Hk.
      * rewrite Ho by done. apply Hdone; [done|lia].
  - split; [done|]. split; [done|]. split; [|done].
    intros j Hj. apply Hrest. lia.
Qed.

(** Every tile already carries its candidate tag: the loop writes
    nothing and changes no tag, whatever its outcome. *)
Lemma sweep_idle (n : nat) (s : Ctl) :
  (forall k : nat, (k < n)%nat -> _last_images s !! k = Some (cand k)) ->
  writes (for_each (range n) body s).2 = writes s
  /\ _last_images (for_each (range n) body s).2 = _last_images s.
Proof.
  intros Hall. induction n as [|n IH]; [done|].
  rewrite for_each_range_S.
  destruct IH as (Hw & Hl); [intros; apply Hall; lia|].
  destruct (for_each (range n) body s) as [[[]|e] s1]; simpl in *; [|done].
  destruct (Hstep n s1) as (_ & _ & _ & _ & Hsame & _).
  destruct Hsame as (Hw' & Hl'); [rewrite Hl; apply Hall; lia|].
  split; congruence.
Qed.

(** No tile carries its candidate tag and the loop returns: it wrote
    every tile once, in order. *)
Lemma sweep_all (n : nat) (s s1 : Ctl) :
  (forall k : nat, (k < n)%nat ->
      exists stored, _last_images s !! k = Some stored /\ stored ≠ cand k) ->
  for_each (range n) body s = (Ok tt, s1) ->
  written_keys s1 = reverse (range n) ++ written_keys s.
Proof.
  revert s1. induction n as [|n IH]; intros s1 Hall.
  - by intros [= <-].
  - rewrite for_each_range_S.
    pose proof (sweep_frame n s) as (_ & _ & Hrest & _).
    destruct (for_each (range n) body s) as [[[]|e] s0] eqn:Hpre; [|done].
    intros Hbody. simpl in Hrest.
    destruct (Hall n) as (stored & Hst & Hne); [lia|].
    destruct (Hstep n s0) as (_ & _ & _ & _ & _ & Hwr).
    rewrite Hbody in Hwr. simpl in Hwr.
    destruct (Hwr eq_refl stored) as (image & Hw); [by rewrite Hrest|done|].
    rewrite written_keys_writes, Hw. simpl.
    rewrite <- written_keys_writes, (IH s0); [|intros; apply Hall; lia|done].
    by rewrite range_S, reverse_snoc.
Qed.

End Sweep.

End Loops.

(** ** The two sweeps: background and buttons *)

Section Sweeps.
Context {D Image Native : Type}.
Context `{!ImageOps Image} `{!DeckOps D Image Native}.

Local Abbreviation Ctl := (StreamDeckController D Image Native).
Local Abbreviation Method := (M D Image Native).
Local Open Scope method_scope.

Lemma py_getitem_nat {A} (l : list A) (k : nat) :
  py_getitem l (Z.of_nat k) =
  match l !! k with Some x => Ok x | None => Raise IndexError end.
Proof.
  destruct (l !! k) as [x|] eqn:Hk; [by apply py_getitem_of_nat|].
  unfold py_getitem. rewrite py_index_of_nat_ge; [done|].
  by apply lookup_ge_None.
Qed.

Lemma py_setitem_nat {A} (l : list A) (k : nat) (x y : A) :
  l !! k = Some y -> py_setitem l (Z.of_nat k) x = Ok (<[k:=x]> l).
Proof.
  intros Hk. unfold py_setitem. rewrite py_index_of_nat; [done|].
  by eapply lookup_lt_Some.
Qed.

Lemma tile_post_raise (k : nat) (c : tag) (e : exn) (s s0 : Ctl) :
  _last_images s0 = _last_images s ->
  _default_background s0 = _default_background s ->
  writes s0 = writes s ->
  tile_post k c s (Raise e, s0).
Proof.
  intros Hl Hb Hw. unfold tile_post. simpl. rewrite Hl, Hb, Hw.
  by repeat split.
Qed.

Lemma maybeWrite_tile (k : nat) (c : tag) (image : Native) (s : Ctl) :
  tile_post k c s (maybeWrite (Z.of_nat k) c image s).
Proof.
  rewrite maybeWrite_unfold, py_getitem_nat.
  destruct (_last_images s !! k) as [stored|] eqn:Hk;
    [|by apply tile_post_raise].
  destruct (decide (stored ≠ c)) as [Hne|Heq].
  - destruct (deck_set_key_image (Z.of_nat k) image (_deck s)).1.
    + rewrite (py_setitem_nat _ _ _ stored) by done.
      unfold tile_post. simpl. split; [apply length_insert|].
      split; [done|]. split; [|split; [|split]].
      * intros j Hj. by apply list_lookup_insert_ne.
      * intros _. apply list_lookup_insert_eq. by eapply lookup_lt_Some.
      * intros Hc. congruence.
      * intros _ st Hst Hd. by exists image.
    + unfold tile_post. simpl. repeat split; try done; congruence.
  - apply dec_stable in Heq. subst stored.
    unfold tile_post. simpl. repeat split; try done. intros _ st Hst Hd.
    congruence.
Qed.

(** Runs of a tile update from a state that differs from [s] in neither
    tags, nor writes, nor background slices. *)
Lemma tile_post_from (k : nat) (c : tag) (s s0 : Ctl) (r : outcome unit * Ctl) :
  _last_images s0 = _last_images s ->
  _default_background s0 = _default_background s ->
  writes s0 = writes s ->
  tile_post k c s0 r -> tile_post k c s r.
Proof.
  unfold tile_post. intros -> -> ->. done.
Qed.

Lemma render_all_keys_body_step (key_images : gmap Z Native) :
  tile_step (render_all_keys_body key_images) (fun _ => TAG_RENDER_ALL).
Proof.
  intros k s. destruct (key_images !! Z.of_nat k) as [image|] eqn:Hk.
  - rewrite (render_all_keys_body_found _ _ _ Hk). apply maybeWrite_tile.
  - rewrite (render_all_keys_body_missing _ _ Hk). by apply tile_post_raise.
Qed.

Lemma update_body_configured (config : ConfigStore) (k : nat) :
  update_body config (Z.of_nat k) =
  match configured config k with
  | Some button => set_key_image (Z.of_nat k) button
  | None => set_key_empty (Z.of_nat k)
  end.
Proof.
  unfold update_body, configured.
  case_bool_decide as Hlt.
  - rewrite py_getitem_nat.
    destruct (buttons config !! k) as [[button|]|] eqn:Hk; try done.
    apply lookup_ge_None in Hk. lia.
  - rewrite (proj2 (lookup_ge_None (buttons config) k)) by lia. done.
Qed.

Lemma update_body_step (config : ConfigStore) :
  tile_step (update_body config) (candidate_tag config).
Proof.
  intros k s. rewrite update_body_configured. unfold candidate_tag.
  destruct (configured config k) as [button|].
  - pose proof (render_key_frame (icon button) (label button)
                  (button_background button) s) as Hf. cbv zeta in Hf.
    destruct (render_key (icon button) (label button)
                (button_background button) s) as [[image|e] s0] eqn:Hr;
      simpl in Hf; destruct Hf as (_ & Hl & Hb & _ & Hw & _).
    + destruct (set_key_image_run (Z.of_nat k) _ _ _ _ Hr) as (-> & _).
      apply (tile_post_from _ _ _ s0); try done. apply maybeWrite_tile.
    + destruct (set_key_image_render_fail (Z.of_nat k) _ _ _ _ Hr) as (-> & _).
      by apply tile_post_raise.
  - rewrite set_key_empty_maybeWrite. apply maybeWrite_tile.
Qed.

Lemma candidate_tag_not_background (config : ConfigStore) (k : nat) :
  TAG_RENDER_ALL ≠ candidate_tag config k.
Proof.
  unfold candidate_tag. by destruct (configured config k).
Qed.

(** *** The background sweep *)

Lemma render_all_keys_tags (key_images : gmap Z Native) (s s1 : Ctl) :
  render_all_keys key_images s = (Ok tt, s1) ->
  forall k : nat, (k < key_count D)%nat ->
    _last_images s1 !! k = Some TAG_RENDER_ALL.
Proof.
  intros Hr k Hk.
  pose proof (sweep_frame _ _ (render_all_keys_body_step key_images)
                (key_count D) s) as (_ & _ & _ & Hdone).
  fold (render_all_keys key_images) in Hdone. rewrite Hr in Hdone.
  by apply Hdone.
Qed.

Lemma render_all_keys_idle (key_images : gmap Z Native) (s : Ctl) :
  (forall k : nat, (k < key_count D)%nat ->
      _last_images s !! k = Some TAG_RENDER_ALL) ->
  writes (render_all_keys key_images s).2 = writes s
  /\ _last_images (render_all_keys key_images s).2 = _last_images s.
Proof.
  intros Hall.
  by apply (sweep_idle _ _ (render_all_keys_body_step key_images)).
Qed.

(** C10.  The full-panel render path tags every tile with the one
    constant tag ("render_all", None), whatever the images: right after
    [render_all_keys] returned for one image dictionary, every tile
    carries that tag, and [render_all_keys] on any other dictionary
    performs no hardware write and leaves the stored tags as they
    are. *)
Theorem C10_render_all_constant_tag (key_images other : gmap Z Native)
    (s s1 : Ctl) :
  render_all_keys key_images s = (Ok tt, s1) ->
  (forall k : nat, (k < key_count D)%nat ->
      _last_images s1 !! k = Some TAG_RENDER_ALL)
  /\ writes (render_all_keys other s1).2 = writes s1
  /\ _last_images (render_all_keys other s1).2 = _last_images s1.
Proof.
  intros Hr.
  pose proof (render_all_keys_tags _ _ _ Hr) as Htags.
  split; [done|]. by apply render_all_keys_idle.
Qed.

End Sweeps.

Lemma C10_witness :
  let s := sim_start None in
  let s1 := (render_all_keys (_default_background s) s).2 in
  length (writes s1) = 8%nat
  /\ writes (render_all_keys ∅ s1).2 = writes s1
  /\ _last_images (render_all_keys ∅ s1).2 = _last_images s1.
Proof.
  cbv zeta. split; [vm_compute; reflexivity|].
  refine (proj2 (C10_render_all_constant_tag
                   (_default_background (sim_start None)) ∅
                   (sim_start None) _ _)).
  vm_compute. reflexivity.
Defined.

(** ** Update cycles and the session *)

Section Session.
Context {D Image Native : Type}.
Context `{!ImageOps Image} `{!DeckOps D Image Native}.

Local Abbreviation Ctl := (StreamDeckController D Image Native).
Local Abbreviation Method := (M D Image Native).
Local Open Scope method_scope.

Lemma update_disconnected (config : ConfigStore) (s : Ctl) :
  remote_connected config = false ->
  update config s = render_all_keys (_default_background s) s.
Proof. intros Hc. unfold update. by rewrite Hc. Qed.

Lemma update_connected (config : ConfigStore) (s : Ctl) :
  remote_connected config = true ->
  update config s = for_each (range (key_count D)) (update_body config) s.
Proof. intros Hc. unfold update. by rewrite Hc. Qed.

(** C4.  With remote_connected = false an update cycle is the
    background sweep over the precomputed slices and does not read the
    button entries: two configurations that both report
    remote_connected = false give the same outcome, the same state and
    the same hardware writes from any state, and when the cycle returns
    every tile carries the background tag. *)
Theorem C4_disconnected_ignores_buttons (config config' : ConfigStore) (s : Ctl) :
  remote_connected config = false ->
  remote_connected config' = false ->
  update config s = update config' s
  /\ update config s = render_all_keys (_default_background s) s
  /\ tile_step (render_all_keys_body (_default_background s))
       (fun _ => TAG_RENDER_ALL)
  /\ forall s1, update config s = (Ok tt, s1) ->
       forall k : nat, (k < key_count D)%nat ->
         _last_images s1 !! k = Some TAG_RENDER_ALL.
Proof.
  intros Hc Hc'. rewrite !update_disconnected by done.
  split; [done|]. split; [done|].
  split; [apply render_all_keys_body_step|].
  intros s1 Hr. by eapply render_all_keys_tags.
Qed.

Lemma maybeWrite_errors (k : nat) (c : tag) (image : Native) (s : Ctl) (e : exn) :
  (k < length (_last_images s))%nat ->
  (maybeWrite (Z.of_nat k) c image s).1 = Raise e -> e = TransportError.
Proof.
  intros Hk. rewrite maybeWrite_unfold, py_getitem_nat.
  destruct (lookup_lt_is_Some_2 _ _ Hk) as [stored Hs]. rewrite Hs.
  destruct (decide (stored ≠ c)); [|done].
  destruct (deck_set_key_image (Z.of_nat k) image (_deck s)).1;
    [|by intros [= <-]].
  by rewrite (py_setitem_nat _ _ _ stored).
Qed.

Lemma update_body_errors (config : ConfigStore) (k : nat) (s : Ctl) (e : exn) :
  (k < length (_last_images s))%nat ->
  (update_body config (Z.of_nat k) s).1 = Raise e ->
  e = TransportError \/ e = AssetError.
Proof.
  intros Hk. rewrite update_body_configured.
  destruct (configured config k) as [button|].
  - destruct (render_key (icon button) (label button)
                (button_background button) s) as [[image|e'] s0] eqn:Hr.
    + destruct (set_key_image_run (Z.of_nat k) _ _ _ _ Hr) as (-> & _ & Hl & _).
      rewrite <- Hl in Hk. intros He. left. by eapply maybeWrite_errors.
    + destruct (set_key_image_render_fail (Z.of_nat k) _ _ _ _ Hr)
        as (-> & -> & _).
      intros [= <-]. by right.
  - rewrite set_key_empty_maybeWrite. intros He. left.
    by eapply maybeWrite_errors.
Qed.

Lemma update_tags (config : ConfigStore) (s s1 : Ctl) :
  remote_connected config = true ->
  update config s = (Ok tt, s1) ->
  forall k : nat, (k < key_count D)%nat ->
    _last_images s1 !! k = Some (candidate_tag config k).
Proof.
  intros Hc. rewrite update_connected by done. intros Hr k Hk.
  pose proof (sweep_frame _ _ (update_body_step config) (key_count D) s)
    as (_ & _ & _ & Hdone).
  rewrite Hr in Hdone. by apply Hdone.
Qed.

(** C9.  With remote_connected = true, a tile index at or past the end
    of the button sequence is an empty slot: [update] handles it with
    [set_key_empty] and, when the cycle returns, the tile carries the
    empty tag.  The access to the sequence is guarded: on a controller
    whose tag list has one entry per key, [update] raises no index
    error (it can only raise what the device or the asset loader
    raises), however short the button sequence. *)
Theorem C9_short_button_sequence (config : ConfigStore) (s : Ctl) :
  remote_connected config = true ->
  length (_last_images s) = key_count D ->
  (forall k : nat, (length (buttons config) <= k)%nat ->
      update_body config (Z.of_nat k) = set_key_empty (Z.of_nat k))
  /\ (forall e, (update config s).1 = Raise e ->
        e = TransportError \/ e = AssetError)
  /\ (forall s1, update config s = (Ok tt, s1) ->
        forall k : nat, (length (buttons config) <= k < key_count D)%nat ->
          _last_images s1 !! k = Some TAG_EMPTY_KEY).
Proof.
  intros Hc Hlen.
  assert (forall k : nat, (length (buttons config) <= k)%nat ->
            configured config k = None) as Hnone.
  { intros k Hk. unfold configured.
    by rewrite (proj2 (lookup_ge_None (buttons config) k)). }
  split; [|split].
  - intros k Hk. by rewrite update_body_configured, Hnone.
  - rewrite update_connected by done.
    apply (for_each_range_inv
             (fun s => length (_last_images s) = key_count D)
             (fun e => e = TransportError \/ e = AssetError));
      [|done].
    intros k s' Hk Hs'. split.
    + destruct (update_body_step config k s') as (Hl & _). congruence.
    + intros e. apply update_body_errors. lia.
  - intros s1 Hr k [Hk1 Hk2].
    rewrite (update_tags config s s1) by done.
    unfold candidate_tag. by rewrite Hnone.
Qed.

(** *** Opening and closing *)

Lemma deck_call_frame (e : event Native) (op : D -> bool * D) (s : Ctl) :
  is_write e = false ->
  let r := deck_call e op s in
  _last_images r.2 = _last_images s
  /\ _default_background r.2 = _default_background s
  /\ writes r.2 = writes s
  /\ (r.1 = Ok tt \/ r.1 = Raise TransportError).
Proof.
  intros He. unfold deck_call. destruct (op (_deck s)) as [[] d]; simpl.
  - repeat split; [|by left]. unfold writes. simpl. rewrite filter_cons.
    by rewrite decide_False by (rewrite He; done).
  - repeat split; [|by right]. unfold writes. simpl. rewrite filter_cons.
    by rewrite decide_False by (rewrite He; done).
Qed.

(** [open] talks to the device five times, then runs one update cycle. *)
Lemma open_handshake (config : ConfigStore) (s : Ctl) :
  exists s0,
    _last_images s0 = _last_images s
    /\ _default_background s0 = _default_background s
    /\ writes s0 = writes s
    /\ (open config s = update config s0
        \/ open config s = (Raise TransportError, s0)).
Proof.
  unfold open.
  assert (forall (e : event Native) (op : D -> bool * D) (k : Method unit) (s : Ctl),
             is_write e = false ->
             (exists s0,
                 _last_images s0 = _last_images s
                 /\ _default_background s0 = _default_background s
                 /\ writes s0 = writes s
                 /\ (deck_call e op ;; k) s = k s0)
             \/ (exists s0,
                 _last_images s0 = _last_images s
                 /\ _default_background s0 = _default_background s
                 /\ writes s0 = writes s
                 /\ (deck_call e op ;; k) s = (Raise TransportError, s0)))
    as Hcall.
  { intros e op k s' He.
    pose proof (deck_call_frame e op s' He) as Hf. cbv zeta in Hf.
    unfold bind. destruct (deck_call e op s') as [[[]|e'] s0]; simpl in Hf;
      destruct Hf as (Hl & Hb & Hw & Ho).
    - left. by exists s0.
    - right. exists s0. destruct Ho as [Ho|Ho]; [done|].
      injection Ho as ->. done. }
  destruct (Hcall EvOpen deck_open
              (deck_call EvGetSerialNumber deck_get_serial_number ;;
               deck_call EvGetFirmwareVersion deck_get_firmware_version ;;
               deck_call (EvSetBrightness 80) (deck_set_brightness 80) ;;
               deck_call EvSetKeyCallback deck_set_key_callback ;;
               update config) s eq_refl)
    as [(s1 & Hl1 & Hb1 & Hw1 & ->)|(s1 & ? & ? & ? & ->)]; [|by eauto 6].
  destruct (Hcall EvGetSerialNumber deck_get_serial_number
              (deck_call EvGetFirmwareVersion deck_get_firmware_version ;;
               deck_call (EvSetBrightness 80) (deck_set_brightness 80) ;;
               deck_call EvSetKeyCallback deck_set_key_callback ;;
               update config) s1 eq_refl)
    as [(s2 & Hl2 & Hb2 & Hw2 & ->)|(s2 & ? & ? & ? & ->)];
    [|exists s2; repeat split; [congruence..|by right]].
  destruct (Hcall EvGetFirmwareVersion deck_get_firmware_version
              (deck_call (EvSetBrightness 80) (deck_set_brightness 80) ;;
               deck_call EvSetKeyCallback deck_set_key_callback ;;
               update config) s2 eq_refl)
    as [(s3 & Hl3 & Hb3 & Hw3 & ->)|(s3 & ? & ? & ? & ->)];
    [|exists s3; repeat split; [congruence..|by right]].
  destruct (Hcall (EvSetBrightness 80) (deck_set_brightness 80)
              (deck_call EvSetKeyCallback deck_set_key_callback ;;
               update config) s3 eq_refl)
    as [(s4 & Hl4 & Hb4 & Hw4 & ->)|(s4 & ? & ? & ? & ->)];
    [|exists s4; repeat split; [congruence..|by right]].
  destruct (Hcall EvSetKeyCallback deck_set_key_callback
              (update config) s4 eq_refl)
    as [(s5 & Hl5 & Hb5 & Hw5 & ->)|(s5 & ? & ? & ? & ->)];
    exists s5; repeat split; try congruence; [by left|by right].
Qed.

End Session.

Section Lifecycle.
Context {D Image Native : Type}.
Context `{!ImageOps Image} `{!DeckOps D Image Native}.

Local Abbreviation Ctl := (StreamDeckController D Image Native).
Local Abbreviation Method := (M D Image Native).
Local Open Scope method_scope.

(** A [close] that returns on an open deck ran the background sweep to
    its end and then closed the device. *)
Lemma close_open_deck (s s1 : Ctl) :
  deck_is_open (_deck s) = true ->
  close s = (Ok tt, s1) ->
  exists s0,
    render_all_keys (_default_background s) s = (Ok tt, s0)
    /\ _last_images s1 = _last_images s0
    /\ length (_last_images s0) = length (_last_images s).
Proof.
  intros Hopen. unfold close, close_deck, bind at 1, get.
  rewrite Hopen. unfold render_default_background, bind, get.
  pose proof (sweep_frame _ _
                (render_all_keys_body_step (_default_background s))
                (key_count D) s) as (Hlen & _).
  fold (render_all_keys (_default_background s)) in Hlen.
  destruct (render_all_keys (_default_background s) s) as [[[]|e] s0];
    [|done].
  intros Hc. exists s0. split; [done|]. split; [|done].
  pose proof (deck_call_frame EvClose deck_close s0 eq_refl) as Hf.
  cbv zeta in Hf. rewrite Hc in Hf. simpl in Hf. by destruct Hf as (? & _).
Qed.

(** C2, amended.  [close] does not reset the tags to the initial
    ("none", None): after a close of an open deck that returned, every
    tile carries the background tag ("render_all", None).  The first
    update cycle of a later [open] therefore writes exactly the tiles
    whose candidate tag is not the background tag: none of them when
    the remote is not connected, and all N of them, once each and in
    order, when it is connected and the cycle returns. *)
Theorem C2_close_leaves_background_tags (config : ConfigStore) (s s1 : Ctl) :
  length (_last_images s) = key_count D ->
  deck_is_open (_deck s) = true ->
  close s = (Ok tt, s1) ->
  _last_images s1 = replicate (key_count D) TAG_RENDER_ALL
  /\ (remote_connected config = false ->
      writes (open config s1).2 = writes s1
      /\ _last_images (open config s1).2 = _last_images s1)
  /\ (remote_connected config = true ->
      forall s2, open config s1 = (Ok tt, s2) ->
        written_keys s2 = reverse (range (key_count D)) ++ written_keys s1).
Proof.
  intros Hlen Hopen Hclose.
  destruct (close_open_deck s s1 Hopen Hclose) as (s0 & Hr & Hl1 & Hl0).
  pose proof (render_all_keys_tags _ _ _ Hr) as Htags.
  assert (_last_images s1 = replicate (key_count D) TAG_RENDER_ALL) as Hall.
  { rewrite Hl1. apply list_eq. intros k.
    destruct (decide (k < key_count D)%nat) as [Hk|Hk].
    - rewrite Htags by done. symmetry. by apply lookup_replicate_2.
    - rewrite (proj2 (lookup_ge_None _ k)) by lia.
      symmetry. apply lookup_ge_None. rewrite length_replicate. lia. }
  split; [done|].
  destruct (open_handshake config s1) as (s' & Hl' & Hb' & Hw' & Ho).
  assert (forall k : nat, (k < key_count D)%nat ->
            _last_images s' !! k = Some TAG_RENDER_ALL) as Htags'.
  { intros k Hk. rewrite Hl', Hall. by apply lookup_replicate_2. }
  split.
  - intros Hc. destruct Ho as [->| ->]; [|done].
    rewrite update_disconnected by done.
    destruct (render_all_keys_idle (_default_background s') s' Htags')
      as (-> & ->).
    done.
  - intros Hc s2. destruct Ho as [->| ->]; [|done].
    rewrite update_connected by done. intros Hu.
    rewrite (sweep_all _ _ (update_body_step config) (key_count D) s' s2);
      [|  |done].
    + by rewrite !written_keys_writes, Hw'.
    + intros k Hk. exists TAG_RENDER_ALL. split; [by apply Htags'|].
      apply candidate_tag_not_background.
Qed.

(** The state after a device call, whether it succeeded or raised. *)
Lemma bind_deck_call {A} (e : event Native) (op : D -> bool * D)
    (k : Method A) (s : Ctl) :
  (deck_call e op ;; k) s =
  if (op (_deck s)).1
  then k (with_deck (op (_deck s)).2 (with_call e s))
  else (Raise TransportError, with_deck (op (_deck s)).2 (with_call e s)).
Proof.
  unfold bind, deck_call. by destruct (op (_deck s)) as [[] d].
Qed.

Lemma deck_call_run (e : event Native) (op : D -> bool * D) (s : Ctl) :
  deck_call e op s =
  (if (op (_deck s)).1 then Ok tt else Raise TransportError,
   with_deck (op (_deck s)).2 (with_call e s)).
Proof. unfold deck_call. by destruct (op (_deck s)) as [[] d]. Qed.

Lemma close_run (s : Ctl) :
  close s =
  if deck_is_open (_deck s) then
    match render_all_keys (_default_background s) s with
    | (Ok _, s0) => deck_call EvClose deck_close s0
    | (Raise e, s0) => (Raise e, s0)
    end
  else (Ok tt, s).
Proof.
  unfold close, close_deck, bind at 1, get.
  destruct (deck_is_open (_deck s)); [|done].
  unfold render_default_background, bind, get.
  by destruct (render_all_keys (_default_background s) s) as [[[]|e] s0].
Qed.

Lemma exit_unfold (s : Ctl) :
  exit s =
  match close s with
  | (Ok a, s') => (Ok a, s')
  | (Raise e, s') =>
      if decide (e = TransportError) then (Ok tt, s') else (Raise e, s')
  end.
Proof. reflexivity. Qed.

(** [open], call by call: the first device call that is not accepted ends
    it with TransportError; after five accepted calls it is the update
    cycle. *)
Lemma open_unfold (config : ConfigStore) (s : Ctl) :
  let s1 := called EvOpen deck_open s in
  let s2 := called EvGetSerialNumber deck_get_serial_number s1 in
  let s3 := called EvGetFirmwareVersion deck_get_firmware_version s2 in
  let s4 := called (EvSetBrightness 80) (deck_set_brightness 80) s3 in
  let s5 := called EvSetKeyCallback deck_set_key_callback s4 in
  open config s =
  if negb (accepts deck_open s) then (Raise TransportError, s1)
  else if negb (accepts deck_get_serial_number s1) then (Raise TransportError, s2)
  else if negb (accepts deck_get_firmware_version s2) then (Raise TransportError, s3)
  else if negb (accepts (deck_set_brightness 80) s3) then (Raise TransportError, s4)
  else if negb (accepts deck_set_key_callback s4) then (Raise TransportError, s5)
  else update config s5.
Proof.
  cbv zeta. unfold open, accepts, called.
  rewrite bind_deck_call. destruct (deck_open (_deck s)).1; [|done].
  rewrite bind_deck_call. simpl.
  destruct (deck_get_serial_number _).1; [|done].
  rewrite bind_deck_call. simpl.
  destruct (deck_get_firmware_version _).1; [|done].
  rewrite bind_deck_call. simpl.
  destruct (deck_set_brightness 80 _).1; [|done].
  rewrite bind_deck_call. simpl.
  by destruct (deck_set_key_callback _).1.
Qed.

(** A failed write at a stale tile, for the body of each sweep. *)
Lemma update_body_write_fails (config : ConfigStore) (n : nat) (stored : tag)
    (s : Ctl) :
  _last_images s !! n = Some stored ->
  (forall (button : ButtonConfig) (image : Native) (s0 : Ctl),
      configured config n = Some button ->
      render_key (icon button) (label button) (button_background button) s
        = (Ok image, s0) ->
      stored ≠ button_tag button ->
      (deck_set_key_image (Z.of_nat n) image (_deck s)).1 = false ->
      update_body config (Z.of_nat n) s
        = (Raise TransportError, after_write (Z.of_nat n) image s0))
  /\ (configured config n = None ->
      stored ≠ TAG_EMPTY_KEY ->
      (deck_set_key_image (Z.of_nat n)
         (to_native_key_format D (create_key_image D NOT_ACTIVE_COLOR))
         (_deck s)).1 = false ->
      update_body config (Z.of_nat n) s
        = (Raise TransportError,
           after_write (Z.of_nat n)
             (to_native_key_format D (create_key_image D NOT_ACTIVE_COLOR)) s)).
Proof.
  intros Hst. rewrite update_body_configured. split.
  - intros button image s0 -> Hr Hne Hfail.
    destruct (set_key_image_run (Z.of_nat n) _ _ _ _ Hr) as (-> & Hd & Hl & _).
    apply (maybeWrite_fail _ _ stored); [|done|by rewrite Hd].
    by rewrite Hl, py_getitem_nat, Hst.
  - intros -> Hne Hfail. rewrite set_key_empty_maybeWrite.
    apply (maybeWrite_fail _ _ stored); [|done|done].
    by rewrite py_getitem_nat, Hst.
Qed.

(** C8, amended.  The only handler is in [__exit__]: it never propagates
    a TransportError, and returns normally when [close] raised one.
    [close] itself swallows nothing: when [deck.close()] or a background
    write of the closing sweep fails, [close] raises the TransportError,
    and only [__exit__] turns that into a normal return.  Nothing
    swallows it on the other paths: [open] (and [__enter__]) raises it at
    the first of its five device calls that fails and otherwise is the
    update cycle, whose errors it passes on; a failed hardware write
    makes each kind of tile update raise it; and a failed write at tile
    n makes the whole update cycle raise it. *)
Theorem C8_transport_error_handling (config : ConfigStore) (s : Ctl) :
  (* closing *)
  ((exit s).1 ≠ Raise TransportError
   /\ ((close s).1 = Raise TransportError -> exit s = (Ok tt, (close s).2))
   /\ (deck_is_open (_deck s) = true ->
       forall s0, render_default_background s = (Ok tt, s0) ->
         accepts deck_close s0 = false ->
         close s = (Raise TransportError, called EvClose deck_close s0)
         /\ exit s = (Ok tt, called EvClose deck_close s0))
   /\ (deck_is_open (_deck s) = true ->
       forall s0, render_default_background s = (Raise TransportError, s0) ->
         close s = (Raise TransportError, s0) /\ exit s = (Ok tt, s0)))
  (* opening *)
  /\ (let s1 := called EvOpen deck_open s in
      let s2 := called EvGetSerialNumber deck_get_serial_number s1 in
      let s3 := called EvGetFirmwareVersion deck_get_firmware_version s2 in
      let s4 := called (EvSetBrightness 80) (deck_set_brightness 80) s3 in
      let s5 := called EvSetKeyCallback deck_set_key_callback s4 in
      open config s =
      (if negb (accepts deck_open s) then (Raise TransportError, s1)
       else if negb (accepts deck_get_serial_number s1)
         then (Raise TransportError, s2)
       else if negb (accepts deck_get_firmware_version s2)
         then (Raise TransportError, s3)
       else if negb (accepts (deck_set_brightness 80) s3)
         then (Raise TransportError, s4)
       else if negb (accepts deck_set_key_callback s4)
         then (Raise TransportError, s5)
       else update config s5)
      /\ enter config s = open config s)
  (* a hardware write in one tile update *)
  /\ (forall (key : Z) (stored : tag),
        py_getitem (_last_images s) key = Ok stored ->
        (forall (button : ButtonConfig) (image : Native) (s0 : Ctl),
            render_key (icon button) (label button) (button_background button) s
              = (Ok image, s0) ->
            stored ≠ button_tag button ->
            (deck_set_key_image key image (_deck s)).1 = false ->
            set_key_image key button s
              = (Raise TransportError, after_write key image s0))
        /\ (stored ≠ TAG_EMPTY_KEY ->
            (deck_set_key_image key
               (to_native_key_format D (create_key_image D NOT_ACTIVE_COLOR))
               (_deck s)).1 = false ->
            set_key_empty key s
              = (Raise TransportError,
                 after_write key
                   (to_native_key_format D (create_key_image D NOT_ACTIVE_COLOR))
                   s))
        /\ (forall (key_images : gmap Z Native) (image : Native),
              key_images !! key = Some image ->
              stored ≠ TAG_RENDER_ALL ->
              (deck_set_key_image key image (_deck s)).1 = false ->
              render_all_keys_body key_images key s
                = (Raise TransportError, after_write key image s)))
  (* a hardware write in an update cycle, at tile n *)
  /\ (forall (n : nat) (stored : tag) (s1 : Ctl),
        (n < key_count D)%nat ->
        remote_connected config = true ->
        for_each (range n) (update_body config) s = (Ok tt, s1) ->
        _last_images s1 !! n = Some stored ->
        (forall (button : ButtonConfig) (image : Native) (s0 : Ctl),
            configured config n = Some button ->
            render_key (icon button) (label button) (button_background button) s1
              = (Ok image, s0) ->
            stored ≠ button_tag button ->
            (deck_set_key_image (Z.of_nat n) image (_deck s1)).1 = false ->
            update config s
              = (Raise TransportError, after_write (Z.of_nat n) image s0))
        /\ (configured config n = None ->
            stored ≠ TAG_EMPTY_KEY ->
            (deck_set_key_image (Z.of_nat n)
               (to_native_key_format D (create_key_image D NOT_ACTIVE_COLOR))
               (_deck s1)).1 = false ->
            update config s
              = (Raise TransportError,
                 after_write (Z.of_nat n)
                   (to_native_key_format D (create_key_image D NOT_ACTIVE_COLOR))
                   s1)))
  /\ (forall (n : nat) (stored : tag) (image : Native) (s1 : Ctl),
        (n < key_count D)%nat ->
        remote_connected config = false ->
        for_each (range n) (render_all_keys_body (_default_background s)) s
          = (Ok tt, s1) ->
        _last_images s1 !! n = Some stored ->
        _default_background s !! Z.of_nat n = Some image ->
        stored ≠ TAG_RENDER_ALL ->
        (deck_set_key_image (Z.of_nat n) image (_deck s1)).1 = false ->
        update config s
          = (Raise TransportError, after_write (Z.of_nat n) image s1)).
Proof.
  split; [|split; [|split; [|split]]].
  - split; [|split; [|split]].
    + rewrite exit_unfold. destruct (close s) as [[[]|e] s']; simpl; [done|].
      destruct (decide (e = TransportError)) as [->|Hne]; simpl; [done|].
      congruence.
    + rewrite exit_unfold. destruct (close s) as [[[]|e] s']; simpl; [done|].
      intros [= ->]. by rewrite decide_True.
    + intros Hopen s0 Hr Hfail. unfold render_default_background, bind, get in Hr.
      unfold accepts in Hfail.
      rewrite exit_unfold, close_run, Hopen, Hr, deck_call_run, Hfail.
      by rewrite decide_True.
    + intros Hopen s0 Hr. unfold render_default_background, bind, get in Hr.
      rewrite exit_unfold, close_run, Hopen, Hr. by rewrite decide_True.
  - cbv zeta. split; [apply open_unfold|done].
  - intros key stored Hget. split; [|split].
    + intros button image s0 Hr Hne Hfail.
      destruct (set_key_image_run key _ _ _ _ Hr) as (-> & Hd & Hl & _).
      apply (maybeWrite_fail _ _ stored); [by rewrite Hl|done|by rewrite Hd].
    + intros Hne Hfail. rewrite set_key_empty_maybeWrite.
      by apply (maybeWrite_fail _ _ stored).
    + intros key_images image Hk Hne Hfail.
      rewrite (render_all_keys_body_found _ _ _ Hk).
      by apply (maybeWrite_fail _ _ stored).
  - intros n stored s1 Hn Hc Hpre Hst.
    destruct (update_body_write_fails config n stored s1 Hst) as [Himg Hemp].
    rewrite update_connected by done. split.
    + intros button image s0 Hb Hr Hne Hfail.
      eapply for_each_range_raise; [exact Hn|exact Hpre|].
      by apply (Himg button).
    + intros Hb Hne Hfail.
      eapply for_each_range_raise; [exact Hn|exact Hpre|].
      by apply Hemp.
  - intros n stored image s1 Hn Hc Hpre Hst Hk Hne Hfail.
    rewrite update_disconnected by done.
    eapply for_each_range_raise; [exact Hn|exact Hpre|].
    rewrite (render_all_keys_body_found _ _ _ Hk).
    apply (maybeWrite_fail _ _ stored); [|done|done].
    by rewrite py_getitem_nat, Hst.
Qed.

End Lifecycle.

Lemma C4_witness :
  let s := sim_start None in
  update config_disconnected s = update config_disconnected' s
  /\ length (writes (update config_disconnected s).2) = 8%nat.
Proof.
  cbv zeta. split; [|vm_compute; reflexivity].
  refine (proj1 (C4_disconnected_ignores_buttons
                   config_disconnected config_disconnected' (sim_start None) _ _));
    reflexivity.
Defined.

Lemma C9_witness :
  let s1 := (update config_connected (sim_start None)).2 in
  update config_connected (sim_start None) = (Ok tt, s1)
  /\ _last_images s1 !! 5%nat = Some TAG_EMPTY_KEY.
Proof.
  cbv zeta.
  assert (update config_connected (sim_start None)
          = (Ok tt, (update config_connected (sim_start None)).2)) as Hu
    by (vm_compute; reflexivity).
  split; [exact Hu|].
  destruct (C9_short_button_sequence config_connected (sim_start None))
    as (_ & _ & Hempty).
  - reflexivity.
  - vm_compute. reflexivity.
  - apply (Hempty _ Hu). vm_compute. lia.
Defined.

(** C2, as stated, fails: after a session that was opened and closed, the
    tags are ("render_all", None), not the initial ("none", None), and a
    reopen with the remote not connected writes no tile at all. *)
Lemma C2_counterexample :
  let s := (open config_connected (sim_start None)).2 in
  let s1 := (close s).2 in
  length (_last_images s) = 8%nat
  /\ deck_is_open (_deck s) = true
  /\ close s = (Ok tt, s1)
  /\ _last_images s1 = replicate 8 TAG_RENDER_ALL
  /\ _last_images s1 ≠ replicate 8 TAG_NONE
  /\ (open config_disconnected s1).1 = Ok tt
  /\ written_keys (open config_disconnected s1).2 = written_keys s1.
Proof.
  cbv zeta.
  split; [vm_compute; reflexivity|].
  split; [vm_compute; reflexivity|].
  split; [vm_compute; reflexivity|].
  split; [vm_compute; reflexivity|].
  split; [vm_compute; discriminate|].
  split; vm_compute; reflexivity.
Qed.

Lemma C2_witness :
  let s := (open config_connected (sim_start None)).2 in
  let s1 := (close s).2 in
  _last_images s1 = replicate 8 TAG_RENDER_ALL
  /\ (writes (open config_disconnected s1).2 = writes s1
      /\ _last_images (open config_disconnected s1).2 = _last_images s1).
Proof.
  cbv zeta.
  destruct (C2_close_leaves_background_tags config_disconnected
              (open config_connected (sim_start None)).2
              (close (open config_connected (sim_start None)).2).2)
    as (Htags & Hidle & _).
  - vm_compute. reflexivity.
  - vm_compute. reflexivity.
  - vm_compute. reflexivity.
  - split; [exact Htags|]. apply Hidle. reflexivity.
Defined.

(** C8, as stated, fails for [close]: on a session whose [deck.close()]
    raises, [close] does not complete but raises the TransportError; only
    [__exit__] returns normally. *)
Lemma C8_counterexample :
  let s0 := (render_default_background sim_failing_close).2 in
  deck_is_open (_deck sim_failing_close) = true
  /\ render_default_background sim_failing_close = (Ok tt, s0)
  /\ accepts deck_close s0 = false
  /\ close sim_failing_close
     = (Raise TransportError, called EvClose deck_close s0)
  /\ (close sim_failing_close).1 ≠ Ok tt.
Proof.
  cbv zeta.
  split; [vm_compute; reflexivity|].
  split; [vm_compute; reflexivity|].
  split; [vm_compute; reflexivity|].
  split; [vm_compute; reflexivity|].
  vm_compute. discriminate.
Qed.

Lemma C8_witness :
  (let s0 := (render_default_background sim_failing_close).2 in
   close sim_failing_close
     = (Raise TransportError, called EvClose deck_close s0)
   /\ exit sim_failing_close = (Ok tt, called EvClose deck_close s0))
  /\ (let s := sim_start (Some 0%nat) in
      let s0 := (render_key "gear" "On" ACTIVE_COLOR s).2 in
      set_key_image 0 gear_on s
        = (Raise TransportError, after_write 0 gear_on_native s0)
      /\ update config_connected s
         = (Raise TransportError, after_write 0 gear_on_native s0)).
Proof.
  cbv zeta. split.
  - destruct (C8_transport_error_handling config_connected sim_failing_close)
      as ((_ & _ & Hclose & _) & _).
    apply Hclose; vm_compute; reflexivity.
  - destruct (C8_transport_error_handling config_connected
                (sim_start (Some 0%nat))) as (_ & _ & Htile & Hcycle & _).
    split.
    + destruct (Htile 0 TAG_NONE) as (Himage & _); [vm_compute; reflexivity|].
      apply Himage; [vm_compute; reflexivity|discriminate|vm_compute; reflexivity].
    + destruct (Hcycle 0%nat TAG_NONE (sim_start (Some 0%nat))) as (Himage & _).
      * vm_compute. lia.
      * reflexivity.
      * reflexivity.
      * vm_compute. reflexivity.
      * apply (Himage gear_on gear_on_native).
        -- vm_compute. reflexivity.
        -- vm_compute. reflexivity.
        -- discriminate.
        -- vm_compute. reflexivity.
Defined.

(** * Further properties of the code *)

(** ** Geometry of the tiles *)

Lemma region_Ok_inv (rows cols tileWidth tileHeight i x0 y0 x1 y1 : Z) :
  cols <> 0 ->
  region (rows, cols) (tileWidth, tileHeight) i = Ok (x0, y0, x1, y1) ->
  x0 = (i `mod` cols) * (tileWidth + 36)
  /\ y0 = (i `div` cols) * (tileHeight + 36)
  /\ x1 = x0 + tileWidth /\ y1 = y0 + tileHeight.
Proof.
  intros Hc. rewrite region_eq by done. simpl. intros [= <- <- <- <-]. done.
Qed.

(** X1.  On a grid with at least one column and tiles of non-negative
    size, the crop region of every key in [0, rows*cols) lies inside the
    full-deck image: its start is non-negative and its end does not
    exceed [full_deck_image_size]. *)
Theorem X1_region_inside_full_deck_image
    (rows cols tileWidth tileHeight i x0 y0 x1 y1 : Z) :
  0 < cols -> 0 <= tileWidth -> 0 <= tileHeight ->
  0 <= i < rows * cols ->
  region (rows, cols) (tileWidth, tileHeight) i = Ok (x0, y0, x1, y1) ->
  0 <= x0 /\ 0 <= y0
  /\ x1 <= (full_deck_image_size (rows, cols) (tileWidth, tileHeight)).1
  /\ y1 <= (full_deck_image_size (rows, cols) (tileWidth, tileHeight)).2.
Proof.
  intros Hc Hw Hh Hi Hr.
  apply region_Ok_inv in Hr as (-> & -> & -> & ->); [|lia].
  rewrite full_deck_image_size_eq. simpl.
  pose proof (Z.mod_pos_bound i cols Hc) as Hm.
  assert (0 <= i `div` cols) as Hd0 by (apply Z.div_pos; lia).
  assert (i `div` cols < rows) as Hd1
    by (apply Z.div_lt_upper_bound; [lia|nia]).
  repeat split; nia.
Qed.

Lemma X1_witness :
  0 <= 324 /\ 0 <= 108
  /\ 396 <= (full_deck_image_size (2, 4) (72, 72)).1
  /\ 180 <= (full_deck_image_size (2, 4) (72, 72)).2.
Proof.
  apply (X1_region_inside_full_deck_image 2 4 72 72 7 324 108 396 180);
    [lia | lia | lia | lia | reflexivity].
Defined.

(** X2.  The crop regions of two different keys never overlap: they are
    apart by at least the key spacing, horizontally or vertically.  This
    holds for all integer keys, in range or not. *)
Theorem X2_regions_apart
    (rows cols tileWidth tileHeight i j a0 b0 a1 b1 c0 d0 c1 d1 : Z) :
  0 < cols -> 0 <= tileWidth -> 0 <= tileHeight ->
  i <> j ->
  region (rows, cols) (tileWidth, tileHeight) i = Ok (a0, b0, a1, b1) ->
  region (rows, cols) (tileWidth, tileHeight) j = Ok (c0, d0, c1, d1) ->
  a1 + KEY_SPACING.1 <= c0 \/ c1 + KEY_SPACING.1 <= a0
  \/ b1 + KEY_SPACING.2 <= d0 \/ d1 + KEY_SPACING.2 <= b0.
Proof.
  intros Hc Hw Hh Hij Hi Hj.
  apply region_Ok_inv in Hi as (-> & -> & -> & ->); [|lia].
  apply region_Ok_inv in Hj as (-> & -> & -> & ->); [|lia].
  simpl.
  pose proof (Z.div_mod i cols ltac:(lia)) as Ei.
  pose proof (Z.div_mod j cols ltac:(lia)) as Ej.
  destruct (Z.lt_trichotomy (i `mod` cols) (j `mod` cols)) as [Hlt|[Heq|Hgt]].
  - left. nia.
  - destruct (Z.lt_trichotomy (i `div` cols) (j `div` cols)) as [Hl|[He|Hg]].
    + right. right. left. nia.
    + exfalso. apply Hij. rewrite Ei, Ej, Heq, He. done.
    + right. right. right. nia.
  - right. left. nia.
Qed.

Lemma X2_witness :
  72 + KEY_SPACING.1 <= 108 \/ 180 + KEY_SPACING.1 <= 0
  \/ 72 + KEY_SPACING.2 <= 0 \/ 72 + KEY_SPACING.2 <= 0.
Proof.
  apply (X2_regions_apart 2 4 72 72 0 1 0 0 72 72 108 0 180 72);
    [lia | lia | lia | lia | reflexivity | reflexivity].
Defined.

(** ** Construction of the controller *)

Section Construction.
Context {D Image Native : Type}.
Context `{!ImageOps Image} `{!DeckOps D Image Native}.

Local Abbreviation Ctl := (StreamDeckController D Image Native).

Lemma elem_of_range (n : nat) (k : Z) : k ∈ range n <-> 0 <= k < Z.of_nat n.
Proof.
  unfold range. rewrite list_elem_of_fmap. split.
  - intros (j & -> & Hj). apply elem_of_seq in Hj. lia.
  - intros Hk. exists (Z.to_nat k). split; [lia|]. apply elem_of_seq. lia.
Qed.

Lemma crop_each_Ok (image : Image) (ks : list Z) (acc d : gmap Z Native) :
  crop_each image ks acc = Ok d ->
  forall k : Z,
    (k ∈ ks ->
     exists v, crop_key_image_from_deck_sized_image image k = Ok v
               /\ d !! k = Some v)
    /\ (k ∉ ks -> d !! k = acc !! k).
Proof.
  revert acc. induction ks as [|k0 ks IH]; intros acc.
  - intros [= <-] k. split; [by intros ?%elem_of_nil|done].
  - simpl.
    destruct (crop_key_image_from_deck_sized_image image k0) as [n|e] eqn:Hk0;
      [|done].
    simpl. intros Hd k. destruct (IH _ Hd k) as [Hin Hout]. split.
    + intros Hk. destruct (decide (k ∈ ks)) as [Hks|Hks]; [by apply Hin|].
      apply elem_of_cons in Hk as [->|Hk]; [|done].
      exists n. split; [done|]. rewrite Hout by done. apply lookup_insert_eq.
    + intros Hk. apply not_elem_of_cons in Hk as [Hne Hks].
      rewrite Hout by done. by apply lookup_insert_ne.
Qed.

Lemma generate_key_images_Ok (assets_path image_filename : string)
    (d : gmap Z Native) :
  generate_key_images_from_deck_sized_image assets_path image_filename = Ok d ->
  exists image,
    create_full_deck_sized_image assets_path image_filename = Ok image
    /\ forall k : Z,
         (0 <= k < Z.of_nat (key_count D) ->
          exists v, crop_key_image_from_deck_sized_image image k = Ok v
                    /\ d !! k = Some v)
         /\ (~ 0 <= k < Z.of_nat (key_count D) -> d !! k = None).
Proof.
  unfold generate_key_images_from_deck_sized_image.
  destruct (create_full_deck_sized_image assets_path image_filename)
    as [image|e]; [|done].
  simpl. intros Hd. exists image. split; [done|]. intros k.
  destruct (crop_each_Ok _ _ _ _ Hd k) as [Hin Hout]. split.
  - intros Hk. apply Hin. by apply elem_of_range.
  - intros Hk. rewrite Hout; [done|]. by rewrite elem_of_range.
Qed.

(** X3.  When [generate_key_images_from_deck_sized_image] returns, the
    dictionary has an entry for exactly the keys 0 .. key_count-1, and the
    entry of key k is the crop of the one full-deck image at key k. *)
Theorem X3_key_images_cover_the_deck (assets_path image_filename : string)
    (d : gmap Z Native) :
  generate_key_images_from_deck_sized_image assets_path image_filename = Ok d ->
  exists image,
    create_full_deck_sized_image assets_path image_filename = Ok image
    /\ forall k : Z,
         (0 <= k < Z.of_nat (key_count D) ->
          exists v, crop_key_image_from_deck_sized_image image k = Ok v
                    /\ d !! k = Some v)
         /\ (~ 0 <= k < Z.of_nat (key_count D) -> d !! k = None).
Proof. apply generate_key_images_Ok. Qed.

Lemma init_Ok (deck : D) (assets_path : string) (s : Ctl) :
  init deck assets_path = Ok s ->
  _deck s = deck
  /\ _assets_path s = assets_path
  /\ _icon_cache s = ∅
  /\ calls s = []
  /\ _last_images s = replicate (key_count D) TAG_NONE
  /\ generate_key_images_from_deck_sized_image assets_path BACKGROUND_IMAGE
       = Ok (_default_background s).
Proof.
  unfold init.
  destruct (generate_key_images_from_deck_sized_image assets_path
              BACKGROUND_IMAGE) as [d|e]; [|done].
  simpl. destruct (findfont "Arial") as [file|]; [|done].
  destruct (ImageFont_truetype file 14) as [font|]; [|done].
  intros [= <-]. done.
Qed.

Lemma init_well_formed (deck : D) (assets_path : string) (s : Ctl) :
  init deck assets_path = Ok s -> well_formed s.
Proof.
  intros Hi. destruct (init_Ok _ _ _ Hi) as (_ & _ & _ & _ & Hl & Hg).
  split; [by rewrite Hl, length_replicate|].
  intros k Hk. destruct (generate_key_images_Ok _ _ _ Hg) as (image & _ & Hd).
  destruct (Hd (Z.of_nat k)) as [Hin _].
  destruct Hin as (v & _ & ->); [lia|done].
Qed.

(** X4.  A controller that [__init__] returns has made no device call,
    has an empty icon cache, carries the tag ("none", None) on each of its
    key_count tiles, and holds a background slice for every key. *)
Theorem X4_init_state (deck : D) (assets_path : string) (s : Ctl) :
  init deck assets_path = Ok s ->
  _deck s = deck
  /\ calls s = []
  /\ _icon_cache s = ∅
  /\ _last_images s = replicate (key_count D) TAG_NONE
  /\ well_formed s.
Proof.
  intros Hi. destruct (init_Ok _ _ _ Hi) as (? & _ & ? & ? & ? & _).
  repeat split; try done; by eapply init_well_formed.
Qed.

Lemma create_full_missing (assets_path image_filename : string) :
  Image_open (path_join assets_path image_filename) = None ->
  create_full_deck_sized_image assets_path image_filename = Raise AssetError.
Proof. intros Ho. unfold create_full_deck_sized_image. by rewrite Ho. Qed.

Lemma create_full_zero_height (assets_path image_filename : string) (fg : Image) :
  Image_open (path_join assets_path image_filename) = Some fg ->
  (full_deck_image_size (key_layout D) (key_image_size D)).2 = 0 ->
  create_full_deck_sized_image assets_path image_filename
    = Raise ZeroDivisionError.
Proof.
  intros Ho Hz. unfold create_full_deck_sized_image. rewrite Ho.
  unfold py_floordiv at 1. by rewrite bool_decide_eq_true_2.
Qed.

Lemma create_full_negative (assets_path image_filename : string) (fg : Image) :
  Image_open (path_join assets_path image_filename) = Some fg ->
  (full_deck_image_size (key_layout D) (key_image_size D)).2 <> 0 ->
  (image_height fg * (full_deck_image_size (key_layout D) (key_image_size D)).1)
    `div` (full_deck_image_size (key_layout D) (key_image_size D)).2 < 0
  \/ image_height fg < 0 ->
  create_full_deck_sized_image assets_path image_filename = Raise ValueError.
Proof.
  intros Ho Hz Hneg. unfold create_full_deck_sized_image. rewrite Ho.
  unfold py_floordiv at 1. rewrite bool_decide_eq_false_2 by done.
  simpl. unfold py_Image_new. by rewrite bool_decide_eq_true_2.
Qed.

(** X5.  How [__init__] fails.  It raises the asset error when the
    background image cannot be opened; ZeroDivisionError when the image
    opens and the full-deck image has height zero; ValueError when the
    canvas it would create for the background has a negative width or
    height, as on a deck that reports zero columns; and the font error
    when the background slices were built but the font file is not found
    or cannot be opened. *)
Theorem X5_init_failures (deck : D) (assets_path : string) :
  let opened := Image_open (path_join assets_path BACKGROUND_IMAGE) in
  let size := full_deck_image_size (key_layout D) (key_image_size D) in
  (opened = None -> init deck assets_path = Raise AssetError)
  /\ (forall fg, opened = Some fg -> size.2 = 0 ->
        init deck assets_path = Raise ZeroDivisionError)
  /\ (forall fg, opened = Some fg -> size.2 <> 0 ->
        (image_height fg * size.1) `div` size.2 < 0 \/ image_height fg < 0 ->
        init deck assets_path = Raise ValueError)
  /\ (forall d,
        generate_key_images_from_deck_sized_image assets_path BACKGROUND_IMAGE
          = Ok d ->
        findfont "Arial" = None
        \/ (exists file, findfont "Arial" = Some file
                          /\ ImageFont_truetype file 14 = None) ->
        init deck assets_path = Raise FontError).
Proof.
  cbv zeta. split; [|split; [|split]].
  - intros Ho. unfold init, generate_key_images_from_deck_sized_image.
    by rewrite (create_full_missing _ _ Ho).
  - intros fg Ho Hz. unfold init, generate_key_images_from_deck_sized_image.
    by rewrite (create_full_zero_height _ _ _ Ho Hz).
  - intros fg Ho Hz Hneg.
    unfold init, generate_key_images_from_deck_sized_image.
    by rewrite (create_full_negative _ _ _ Ho Hz Hneg).
  - intros d Hd Hfont. unfold init. rewrite Hd. simpl.
    destruct Hfont as [-> | (file & -> & ->)]; done.
Qed.

End Construction.

Lemma X3_witness :
  exists image,
    create_full_deck_sized_image "assets" BACKGROUND_IMAGE = Ok image
    /\ forall k : Z,
         (0 <= k < Z.of_nat (key_count SimDeck) ->
          exists v, crop_key_image_from_deck_sized_image image k = Ok v
                    /\ _default_background (sim_start None) !! k = Some v)
         /\ (~ 0 <= k < Z.of_nat (key_count SimDeck) ->
             _default_background (sim_start None) !! k = None).
Proof.
  apply (X3_key_images_cover_the_deck (D := SimDeck) "assets" BACKGROUND_IMAGE
           (_default_background (sim_start None))).
  vm_compute. reflexivity.
Defined.

Lemma X4_witness :
  _deck (sim_start None) = sim_deck None
  /\ calls (sim_start None) = []
  /\ _icon_cache (sim_start None) = ∅
  /\ _last_images (sim_start None) = replicate (key_count SimDeck) TAG_NONE
  /\ well_formed (sim_start None).
Proof.
  apply (X4_init_state (sim_deck None) "assets" (sim_start None)).
  vm_compute. reflexivity.
Defined.

Lemma X5_witness :
  @init _ _ _ sim_no_assets sim_deck_ops (sim_deck None) "assets"
    = Raise AssetError
  /\ @init _ _ _ sim_image_ops sim_deck_no_columns (sim_deck None) "assets"
     = Raise ValueError.
Proof.
  split.
  - apply (proj1 (@X5_init_failures _ _ _ sim_no_assets sim_deck_ops
                    (sim_deck None) "assets")).
    reflexivity.
  - apply (proj1 (proj2 (proj2 (@X5_init_failures _ _ _ sim_image_ops
                                  sim_deck_no_columns (sim_deck None) "assets")))
             (SimOpened "assets/Decepticub.png")).
    + reflexivity.
    + vm_compute. discriminate.
    + left. vm_compute. reflexivity.
Defined.

(** ** Whole update cycles *)

Section Cycles.
Context {D Image Native : Type}.
Context `{!ImageOps Image} `{!DeckOps D Image Native}.

Local Abbreviation Ctl := (StreamDeckController D Image Native).
Local Abbreviation Method := (M D Image Native).
Local Open Scope method_scope.

Lemma stale_keys_S (cand : nat -> tag) (n : nat) (s : Ctl) :
  stale_keys cand (S n) s =
  stale_keys cand n s
  ++ (if decide (_last_images s !! n = Some (cand n)) then [] else [Z.of_nat n]).
Proof.
  unfold stale_keys. rewrite seq_S, filter_app, fmap_app. f_equal.
  simpl. rewrite filter_cons, filter_nil.
  destruct (decide (_last_images s !! n = Some (cand n))) as [He|Hne].
  - by rewrite decide_False by (intros Hn; by apply Hn).
  - by rewrite decide_True by done.
Qed.

Lemma stale_keys_all (cand : nat -> tag) (n : nat) (s : Ctl) :
  (forall k : nat, (k < n)%nat -> _last_images s !! k ≠ Some (cand k)) ->
  stale_keys cand n s = range n.
Proof.
  intros Hall. induction n as [|n IH]; [done|].
  rewrite stale_keys_S, range_S, IH by (intros; apply Hall; lia).
  by rewrite decide_False by (apply Hall; lia).
Qed.

Lemma for_each_range_fixed (body : Z -> Method unit) (n : nat) (s : Ctl) :
  (forall k : nat, (k < n)%nat -> body (Z.of_nat k) s = (Ok tt, s)) ->
  for_each (range n) body s = (Ok tt, s).
Proof.
  intros Hall. induction n as [|n IH]; [done|].
  rewrite for_each_range_S, IH by (intros; apply Hall; lia).
  apply Hall. lia.
Qed.

(** A fact that a returning body establishes for its tile, and that no
    later body destroys, holds for every tile when the loop returns. *)
Lemma for_each_range_Ok_all (P : nat -> Ctl -> Prop) (body : Z -> Method unit)
    (n : nat) (s s1 : Ctl) :
  (forall (k : nat) (s s' : Ctl), body (Z.of_nat k) s = (Ok tt, s') -> P k s') ->
  (forall (k j : nat) (s : Ctl), P k s -> P k (body (Z.of_nat j) s).2) ->
  for_each (range n) body s = (Ok tt, s1) ->
  forall k : nat, (k < n)%nat -> P k s1.
Proof.
  intros Hest Hkeep. revert s1. induction n as [|n IH]; intros s1; [lia|].
  rewrite for_each_range_S.
  destruct (for_each (range n) body s) as [[[]|e] s0]; [|done].
  intros Hb k Hk. destruct (decide (k = n)) as [->|Hne].
  - by eapply Hest.
  - specialize (Hkeep k n s0). rewrite Hb in Hkeep. apply Hkeep.
    apply IH; [done|lia].
Qed.

Section Written.
Variable body : Z -> Method unit.
Variable cand : nat -> tag.
Hypothesis Hstep : tile_step body cand.

(** A loop that returns wrote exactly the tiles whose tag was not the
    candidate, once each, in index order. *)
Lemma sweep_written (n : nat) (s s1 : Ctl) :
  for_each (range n) body s = (Ok tt, s1) ->
  written_keys s1 = reverse (stale_keys cand n s) ++ written_keys s.
Proof.
  revert s1. induction n as [|n IH]; intros s1; [by intros [= <-]|].
  rewrite for_each_range_S.
  pose proof (sweep_frame body cand Hstep n s) as (_ & _ & Hrest & _).
  destruct (for_each (range n) body s) as [[[]|e] s0] eqn:Hpre; [|done].
  simpl in Hrest. intros Hb.
  destruct (Hstep n s0) as (Hlen & _ & _ & Hk & Hsame & Hwr).
  rewrite Hb in Hlen, Hk, Hsame, Hwr. simpl in *.
  rewrite stale_keys_S, reverse_app, <- (assoc_L (++)), <- (IH s0) by done.
  destruct (decide (_last_images s !! n = Some (cand n))) as [He|Hne].
  - destruct Hsame as [Hw _]; [by rewrite Hrest|].
    simpl. by rewrite !written_keys_writes, Hw.
  - destruct (_last_images s0 !! n) as [stored|] eqn:Hs0.
    + destruct (Hwr eq_refl stored eq_refl) as (image & Hw).
      { intros ->. apply Hne. by rewrite <- Hrest, Hs0. }
      rewrite written_keys_writes, Hw. simpl. by rewrite <- written_keys_writes.
    + apply lookup_ge_None in Hs0.
      pose proof (lookup_lt_Some _ _ _ (Hk eq_refl)). lia.
Qed.

End Written.

Lemma cycle_step (config : ConfigStore) (s : Ctl) :
  exists body,
    update config s = for_each (range (key_count D)) body s
    /\ tile_step body (cycle_tag config).
Proof.
  unfold cycle_tag. destruct (remote_connected config) eqn:Hc.
  - exists (update_body config). split; [by apply update_connected|].
    apply update_body_step.
  - exists (render_all_keys_body (_default_background s)).
    split; [by apply update_disconnected|]. apply render_all_keys_body_step.
Qed.

Lemma update_written (config : ConfigStore) (s s1 : Ctl) :
  update config s = (Ok tt, s1) ->
  written_keys s1
    = reverse (stale_keys (cycle_tag config) (key_count D) s) ++ written_keys s.
Proof.
  destruct (cycle_step config s) as (body & -> & Hstep).
  by apply sweep_written.
Qed.

Lemma update_Ok_tags (config : ConfigStore) (s s1 : Ctl) :
  update config s = (Ok tt, s1) ->
  forall k : nat, (k < key_count D)%nat ->
    _last_images s1 !! k = Some (cycle_tag config k).
Proof.
  destruct (cycle_step config s) as (body & -> & Hstep). intros Hu.
  pose proof (sweep_frame body _ Hstep (key_count D) s) as (_ & _ & _ & Hdone).
  rewrite Hu in Hdone. by apply Hdone.
Qed.

(** X6.  An update cycle that returns has written exactly the tiles
    whose stored tag differed from the tag the cycle gives them, once
    each and in index order, and afterwards every tile carries the tag
    of the cycle. *)
Theorem X6_update_writes_exactly_the_stale_tiles (config : ConfigStore)
    (s s1 : Ctl) :
  update config s = (Ok tt, s1) ->
  written_keys s1
    = reverse (stale_keys (cycle_tag config) (key_count D) s) ++ written_keys s
  /\ forall k : nat, (k < key_count D)%nat ->
       _last_images s1 !! k = Some (cycle_tag config k).
Proof.
  intros Hu. split; [by apply update_written|by apply (update_Ok_tags config s)].
Qed.

Lemma cycle_tag_not_none (config : ConfigStore) (k : nat) :
  TAG_NONE ≠ cycle_tag config k.
Proof.
  unfold cycle_tag, candidate_tag.
  destruct (remote_connected config); [|done].
  by destruct (configured config k).
Qed.

(** X7.  The first update cycle on a controller fresh from [__init__]
    writes every tile, whatever the configuration: if it returns, the
    hardware writes made are the keys 0 .. key_count-1, once each, in
    order. *)
Theorem X7_first_update_writes_every_tile (deck : D) (assets_path : string)
    (config : ConfigStore) (s s1 : Ctl) :
  init deck assets_path = Ok s ->
  update config s = (Ok tt, s1) ->
  written_keys s1 = reverse (range (key_count D)).
Proof.
  intros Hi Hu. destruct (init_Ok _ _ _ Hi) as (_ & _ & _ & Hc & Hl & _).
  rewrite (update_written _ _ _ Hu), stale_keys_all.
  - unfold written_keys. rewrite Hc. simpl. by rewrite (right_id_L [] (++)).
  - intros k Hk. rewrite Hl, lookup_replicate_2 by done.
    intros [= Ht]. by apply (cycle_tag_not_none config k).
Qed.

End Cycles.

Lemma X6_witness :
  let s := (update config_disconnected (sim_start None)).2 in
  let s1 := (update config_connected s).2 in
  written_keys s1
    = reverse (stale_keys (cycle_tag config_connected) (key_count SimDeck) s)
      ++ written_keys s
  /\ forall k : nat, (k < key_count SimDeck)%nat ->
       _last_images s1 !! k = Some (cycle_tag config_connected k).
Proof.
  cbv zeta. apply X6_update_writes_exactly_the_stale_tiles.
  vm_compute. reflexivity.
Defined.

Lemma X7_witness :
  written_keys (update config_connected (sim_start None)).2
    = reverse (range (key_count SimDeck)).
Proof.
  apply (X7_first_update_writes_every_tile (sim_deck None) "assets"
           config_connected (sim_start None));
    vm_compute; reflexivity.
Defined.

(** ** The icon cache across calls *)

Section Cache.
Context {D Image Native : Type}.
Context `{!ImageOps Image} `{!DeckOps D Image Native}.

Local Abbreviation Ctl := (StreamDeckController D Image Native).
Local Abbreviation Method := (M D Image Native).
Local Open Scope method_scope.

Lemma maybeWrite_frame (key : Z) (c : tag) (image : Native) (s : Ctl) :
  let r := maybeWrite key c image s in
  _icon_cache r.2 = _icon_cache s
  /\ _assets_path r.2 = _assets_path s
  /\ _default_background r.2 = _default_background s
  /\ length (_last_images r.2) = length (_last_images s)
  /\ (calls r.2 = calls s \/ calls r.2 = EvSetKeyImage key image :: calls s).
Proof.
  cbv zeta. rewrite maybeWrite_unfold.
  destruct (py_getitem (_last_images s) key) as [stored|e];
    [|by repeat split; try left].
  destruct (decide (stored ≠ c)); [|by repeat split; try left].
  destruct (deck_set_key_image key image (_deck s)).1.
  - destruct (py_setitem (_last_images s) key c) as [l|e] eqn:Hset.
    + apply py_setitem_length in Hset. repeat split; try done. by right.
    + repeat split; try done. by right.
  - repeat split; try done. by right.
Qed.

Lemma render_key_cache_mono (i l b : string) (s : Ctl) :
  _icon_cache s ⊆ _icon_cache (render_key i l b s).2.
Proof.
  destruct (_icon_cache s !! (i, l, b)) as [c|] eqn:Hc.
  - by rewrite (render_key_hit _ _ _ c).
  - rewrite render_key_miss by done. cbv zeta.
    destruct (composed _ _ _ _ _); destruct (decide (i ≠ ""%string)); simpl;
      try done; by apply insert_subseteq.
Qed.

Lemma set_key_image_cache_mono (key : Z) (button : ButtonConfig) (s : Ctl) :
  _icon_cache s ⊆ _icon_cache (set_key_image key button s).2.
Proof.
  pose proof (render_key_cache_mono (icon button) (label button)
                (button_background button) s) as Hm.
  destruct (render_key (icon button) (label button)
              (button_background button) s) as [[image|e] s0] eqn:Hr.
  - destruct (set_key_image_run key _ _ _ _ Hr) as (-> & _).
    by destruct (maybeWrite_frame key (button_tag button) image s0) as (-> & _).
  - by destruct (set_key_image_render_fail key _ _ _ _ Hr) as (-> & _).
Qed.

Lemma update_body_cache_mono (config : ConfigStore) (k : nat) (s : Ctl) :
  _icon_cache s ⊆ _icon_cache (update_body config (Z.of_nat k) s).2.
Proof.
  rewrite update_body_configured. destruct (configured config k) as [button|].
  - apply set_key_image_cache_mono.
  - rewrite set_key_empty_maybeWrite.
    by destruct (maybeWrite_frame (Z.of_nat k) TAG_EMPTY_KEY
                   (to_native_key_format D (create_key_image D NOT_ACTIVE_COLOR))
                   s) as (-> & _).
Qed.

Lemma render_all_keys_body_cache (key_images : gmap Z Native) (k : Z) (s : Ctl) :
  _icon_cache (render_all_keys_body key_images k s).2 = _icon_cache s.
Proof.
  destruct (key_images !! k) as [image|] eqn:Hk.
  - rewrite (render_all_keys_body_found _ _ _ Hk).
    by destruct (maybeWrite_frame k TAG_RENDER_ALL image s) as (-> & _).
  - by rewrite (render_all_keys_body_missing _ _ Hk).
Qed.

Lemma update_cache_mono (config : ConfigStore) (s : Ctl) :
  _icon_cache s ⊆ _icon_cache (update config s).2.
Proof.
  unfold update. destruct (remote_connected config); simpl.
  - apply (for_each_range_inv
             (fun s' => _icon_cache s ⊆ _icon_cache s') (fun _ => True));
      [|done].
    intros k s' _ Hs'. split; [|done].
    etrans; [exact Hs'|apply update_body_cache_mono].
  - unfold render_default_background, bind, get.
    apply (for_each_range_inv
             (fun s' => _icon_cache s ⊆ _icon_cache s') (fun _ => True));
      [|done].
    intros k s' _ Hs'. split; [|done].
    by rewrite render_all_keys_body_cache.
Qed.

(** An update cycle that returns has cached the image of every
    configured button. *)
Lemma update_caches_buttons (config : ConfigStore) (s s1 : Ctl) :
  remote_connected config = true ->
  update config s = (Ok tt, s1) ->
  forall (k : nat) (button : ButtonConfig),
    (k < key_count D)%nat -> configured config k = Some button ->
    is_Some (_icon_cache s1 !! button_key button).
Proof.
  intros Hc. rewrite update_connected by done. intros Hu k button Hk Hb.
  refine (for_each_range_Ok_all
            (fun k s' => forall button, configured config k = Some button ->
                           is_Some (_icon_cache s' !! button_key button))
            (update_body config) (key_count D) s s1 _ _ Hu k Hk button Hb).
  - clear. intros k s s'. rewrite update_body_configured.
    intros Hrun button Hb. rewrite Hb in Hrun.
    destruct (render_key (icon button) (label button)
                (button_background button) s) as [[image|e] s0] eqn:Hr.
    + destruct (set_key_image_run (Z.of_nat k) _ _ _ _ Hr) as (Heq & _).
      rewrite Heq in Hrun.
      destruct (maybeWrite_frame (Z.of_nat k) (button_tag button) image s0)
        as (Hcache & _).
      rewrite Hrun in Hcache. simpl in Hcache. rewrite Hcache.
      destruct (render_key_cached _ _ _ _ _ _ Hr) as (c & Hin & _).
      by exists c.
    + destruct (set_key_image_render_fail (Z.of_nat k) _ _ _ _ Hr) as (Heq & _).
      rewrite Heq in Hrun. discriminate Hrun.
  - clear. intros k j s HP button Hb. destruct (HP button Hb) as [c Hc].
    exists c. eapply lookup_weaken; [exact Hc|]. apply update_body_cache_mono.
Qed.

Lemma update_body_settled (config : ConfigStore) (k : nat) (s : Ctl) :
  _last_images s !! k = Some (candidate_tag config k) ->
  (forall button, configured config k = Some button ->
     is_Some (_icon_cache s !! button_key button)) ->
  update_body config (Z.of_nat k) s = (Ok tt, s).
Proof.
  intros Ht Hc. rewrite update_body_configured. unfold candidate_tag in Ht.
  destruct (configured config k) as [button|].
  - destruct (Hc button eq_refl) as [c Hin].
    rewrite set_key_image_maybeWrite. unfold bind at 1.
    rewrite (render_key_hit _ _ _ c) by done.
    apply maybeWrite_same. by rewrite py_getitem_nat, Ht.
  - rewrite set_key_empty_maybeWrite.
    apply maybeWrite_same. by rewrite py_getitem_nat, Ht.
Qed.

Lemma render_all_keys_found (key_images : gmap Z Native) (s s1 : Ctl) :
  render_all_keys key_images s = (Ok tt, s1) ->
  forall k : nat, (k < key_count D)%nat -> is_Some (key_images !! Z.of_nat k).
Proof.
  intros Hr k Hk.
  refine (for_each_range_Ok_all
            (fun k _ => is_Some (key_images !! Z.of_nat k))
            (render_all_keys_body key_images) (key_count D) s s1 _ _ Hr k Hk).
  - clear. intros k s s'.
    destruct (key_images !! Z.of_nat k) as [image|] eqn:Hk; [done|].
    by rewrite (render_all_keys_body_missing _ _ Hk).
  - done.
Qed.

Lemma update_settled (config : ConfigStore) (s s1 : Ctl) :
  update config s = (Ok tt, s1) -> update config s1 = (Ok tt, s1).
Proof.
  intros Hu. pose proof (update_Ok_tags config s s1 Hu) as Htags.
  unfold cycle_tag in Htags. destruct (remote_connected config) eqn:Hc.
  - rewrite update_connected by done. apply for_each_range_fixed.
    intros k Hk. apply update_body_settled; [by apply Htags|].
    intros button Hb. by eapply update_caches_buttons.
  - rewrite update_disconnected in Hu |- * by done.
    pose proof (sweep_frame _ _
                  (render_all_keys_body_step (_default_background s))
                  (key_count D) s) as (_ & Hbg & _).
    fold (render_all_keys (_default_background s)) in Hbg.
    rewrite Hu in Hbg. simpl in Hbg. rewrite Hbg.
    apply for_each_range_fixed. intros k Hk.
    destruct (render_all_keys_found _ _ _ Hu k Hk) as [image Hi].
    rewrite (render_all_keys_body_found _ _ _ Hi).
    apply maybeWrite_same. by rewrite py_getitem_nat, Htags.
Qed.

(** X8.  An update cycle is idempotent: if it returns, running it again
    with the same configuration returns and changes nothing at all, so it
    makes no hardware write and loads no asset. *)
Theorem X8_update_idempotent (config : ConfigStore) (s s1 : Ctl) :
  update config s = (Ok tt, s1) ->
  update config s1 = (Ok tt, s1).
Proof. apply update_settled. Qed.

End Cache.

Lemma X8_witness :
  let s1 := (update config_connected (sim_start None)).2 in
  update config_connected s1 = (Ok tt, s1).
Proof.
  cbv zeta. apply (X8_update_idempotent config_connected (sim_start None)).
  vm_compute. reflexivity.
Defined.

(** ** Rendering: missing assets, plain tiles, shared images *)

Section Rendering.
Context {D Image Native : Type}.
Context `{!ImageOps Image} `{!DeckOps D Image Native}.

Local Abbreviation Ctl := (StreamDeckController D Image Native).
Local Abbreviation Method := (M D Image Native).
Local Open Scope method_scope.

(** X9.  A missing icon asset is reported, not substituted and not
    cached: [render_key] raises the asset error after one call of the
    loader and leaves the cache as it was, so the next call with the same
    key calls the loader again and fails again; [set_key_image] for such
    a button raises the same error before it compares tags, makes no
    hardware write and changes no tag. *)
Theorem X9_missing_icon_is_not_cached (key : Z) (button : ButtonConfig) (s : Ctl) :
  let path := path_join (_assets_path s) (icon button +:+ ".svg") in
  let r := render_key (icon button) (label button) (button_background button) s in
  icon button ≠ ""%string ->
  _icon_cache s !! button_key button = None ->
  image_from_svg path 48 = None ->
  r = (Raise AssetError, with_call (EvImageFromSvg path) s)
  /\ render_key (icon button) (label button) (button_background button) r.2
       = (Raise AssetError, with_call (EvImageFromSvg path) r.2)
  /\ set_key_image key button s = (Raise AssetError, r.2)
  /\ writes r.2 = writes s
  /\ _last_images r.2 = _last_images s
  /\ _icon_cache r.2 = _icon_cache s.
Proof.
  cbv zeta. intros Hi Hc Hsvg.
  assert (forall s' : Ctl,
            _assets_path s' = _assets_path s ->
            _default_font s' = _default_font s ->
            _icon_cache s' = _icon_cache s ->
            render_key (icon button) (label button) (button_background button) s'
            = (Raise AssetError,
               with_call (EvImageFromSvg
                            (path_join (_assets_path s)
                               (icon button +:+ ".svg"))) s')) as Hfail.
  { intros s' Hp Hf Hc'. rewrite render_key_miss by (by rewrite Hc').
    cbv zeta. unfold composed. rewrite Hp, Hsvg.
    by rewrite !decide_True by done. }
  rewrite (Hfail s) by done. simpl.
  split; [done|]. split; [by apply Hfail|]. split; [|done].
  rewrite set_key_image_maybeWrite. unfold bind.
  by rewrite (Hfail s).
Qed.

(** X10.  A button without an icon needs no asset: [render_key] with an
    empty icon name always returns, and calls neither the asset loader
    nor the device. *)
Theorem X10_plain_tile_needs_no_asset (label_text background : string) (s : Ctl) :
  exists out s1,
    render_key "" label_text background s = (Ok out, s1)
    /\ calls s1 = calls s
    /\ _icon_cache s1 !! (""%string, label_text, background)
       = Some (match _icon_cache s !! (""%string, label_text, background) with
               | Some cached => cached
               | None => draw_text (create_key_image D background) label_text
                            (_default_font s)
               end)
    /\ out = to_native_key_format D
               (match _icon_cache s !! (""%string, label_text, background) with
                | Some cached => cached
                | None => draw_text (create_key_image D background) label_text
                            (_default_font s)
                end).
Proof.
  destruct (_icon_cache s !! (""%string, label_text, background)) as [c|] eqn:Hc.
  - rewrite (render_key_hit _ _ _ c) by done. by eexists _, _.
  - rewrite render_key_miss by done. cbv zeta. unfold composed.
    rewrite !decide_False by (intros Hn; by apply Hn).
    eexists _, _. split; [done|]. split; [done|]. split; [|done].
    simpl. apply lookup_insert_eq.
Qed.

(** X11.  A rendered image is shared: once [render_key] has returned an
    image for a render key, every later call for that key, in any state
    that still holds the cache entries, returns the same image without
    touching the state; in particular [set_key_image] for the same button
    on another tile loads nothing, and writes that same image if it
    writes at all. *)
Theorem X11_rendered_image_is_shared (button : ButtonConfig) (out : Native)
    (s s1 s2 : Ctl) (key : Z) :
  render_key (icon button) (label button) (button_background button) s
    = (Ok out, s1) ->
  _icon_cache s1 ⊆ _icon_cache s2 ->
  render_key (icon button) (label button) (button_background button) s2
    = (Ok out, s2)
  /\ asset_loads (set_key_image key button s2).2 = asset_loads s2
  /\ (calls (set_key_image key button s2).2 = calls s2
      \/ calls (set_key_image key button s2).2
         = EvSetKeyImage key out :: calls s2).
Proof.
  intros Hr Hsub.
  destruct (render_key_cached _ _ _ _ _ _ Hr) as (c & Hin & ->).
  assert (render_key (icon button) (label button) (button_background button) s2
          = (Ok (to_native_key_format D c), s2)) as Hhit.
  { apply render_key_hit. by eapply lookup_weaken. }
  split; [done|].
  destruct (set_key_image_run key _ _ _ _ Hhit) as (-> & _).
  destruct (maybeWrite_frame key (button_tag button)
              (to_native_key_format D c) s2) as (_ & _ & _ & _ & Hcalls).
  split; [|done].
  unfold asset_loads. by destruct Hcalls as [-> | ->].
Qed.

(** X12.  No method evicts or replaces a cache entry: an image cached
    before [render_key], [set_key_image], [set_key_empty] or a whole
    update cycle is still cached, unchanged, afterwards. *)
Theorem X12_cache_entries_persist (config : ConfigStore) (key : Z)
    (button : ButtonConfig) (i l b : string) (s : Ctl) :
  _icon_cache s ⊆ _icon_cache (render_key i l b s).2
  /\ _icon_cache s ⊆ _icon_cache (set_key_image key button s).2
  /\ _icon_cache (set_key_empty key s).2 = _icon_cache s
  /\ _icon_cache s ⊆ _icon_cache (update config s).2.
Proof.
  split; [apply render_key_cache_mono|].
  split; [apply set_key_image_cache_mono|].
  split; [|apply update_cache_mono].
  rewrite set_key_empty_maybeWrite.
  by destruct (maybeWrite_frame key TAG_EMPTY_KEY
                 (to_native_key_format D (create_key_image D NOT_ACTIVE_COLOR))
                 s) as (-> & _).
Qed.

End Rendering.

Lemma X9_witness :
  set_key_image 1 missing_button (sim_start None)
  = (Raise AssetError,
     (render_key "missing" "Gone" NOT_ACTIVE_COLOR (sim_start None)).2).
Proof.
  destruct (X9_missing_icon_is_not_cached 1 missing_button (sim_start None))
    as (_ & _ & H & _).
  - discriminate.
  - vm_compute. reflexivity.
  - vm_compute. reflexivity.
  - exact H.
Defined.

Lemma X11_witness :
  let s1 := (render_key "gear" "On" ACTIVE_COLOR (sim_start None)).2 in
  let s2 := (update config_disconnected s1).2 in
  render_key "gear" "On" ACTIVE_COLOR s2 = (Ok gear_on_native, s2).
Proof.
  cbv zeta.
  refine (proj1 (X11_rendered_image_is_shared gear_on gear_on_native
                   (sim_start None) _ _ 0 _ _)).
  - vm_compute. reflexivity.
  - apply update_cache_mono.
Defined.

(** ** Keys out of range and aborted cycles *)

Section Edges.
Context {D Image Native : Type}.
Context `{!ImageOps Image} `{!DeckOps D Image Native}.

Local Abbreviation Ctl := (StreamDeckController D Image Native).
Local Abbreviation Method := (M D Image Native).
Local Open Scope method_scope.

Lemma py_getitem_out_of_range {A} (l : list A) (i : Z) :
  ~ (- Z.of_nat (length l) <= i < Z.of_nat (length l)) ->
  py_getitem l i = Raise IndexError.
Proof.
  intros Hi. unfold py_getitem, py_index. cbv zeta.
  destruct (bool_decide (i < 0)) eqn:Hneg.
  - apply bool_decide_eq_true in Hneg. by rewrite bool_decide_eq_false_2 by lia.
  - apply bool_decide_eq_false in Hneg. by rewrite bool_decide_eq_false_2 by lia.
Qed.

Lemma maybeWrite_out_of_range (key : Z) (c : tag) (image : Native) (s : Ctl) :
  ~ (- Z.of_nat (length (_last_images s)) <= key
     < Z.of_nat (length (_last_images s))) ->
  maybeWrite key c image s = (Raise IndexError, s).
Proof.
  intros Hk. by rewrite maybeWrite_unfold, py_getitem_out_of_range.
Qed.

(** X13.  A key outside [-len, len) of the tag list is rejected before
    the device is touched: [set_key_empty] raises IndexError and changes
    nothing; [set_key_image] raises (IndexError, or the asset error if
    the icon does not load), makes no hardware write and changes no tag;
    the body of [render_all_keys] raises KeyError or IndexError and
    changes nothing. *)
Theorem X13_key_out_of_range (key : Z) (button : ButtonConfig)
    (key_images : gmap Z Native) (s : Ctl) :
  ~ (- Z.of_nat (length (_last_images s)) <= key
     < Z.of_nat (length (_last_images s))) ->
  set_key_empty key s = (Raise IndexError, s)
  /\ ((set_key_image key button s).1 = Raise IndexError
      \/ (set_key_image key button s).1 = Raise AssetError)
  /\ writes (set_key_image key button s).2 = writes s
  /\ _last_images (set_key_image key button s).2 = _last_images s
  /\ (render_all_keys_body key_images key s = (Raise IndexError, s)
      \/ render_all_keys_body key_images key s = (Raise KeyError, s)).
Proof.
  intros Hk. split; [|split; [|split; [|split]]].
  - rewrite set_key_empty_maybeWrite. by apply maybeWrite_out_of_range.
  - destruct (render_key (icon button) (label button)
                (button_background button) s) as [[image|e] s0] eqn:Hr.
    + destruct (set_key_image_run key _ _ _ _ Hr) as (-> & _ & Hl & _).
      rewrite maybeWrite_out_of_range by (by rewrite Hl). by left.
    + destruct (set_key_image_render_fail key _ _ _ _ Hr) as (-> & -> & _).
      by right.
  - destruct (render_key (icon button) (label button)
                (button_background button) s) as [[image|e] s0] eqn:Hr.
    + destruct (set_key_image_run key _ _ _ _ Hr) as (-> & _ & Hl & Hw).
      by rewrite maybeWrite_out_of_range by (by rewrite Hl).
    + by destruct (set_key_image_render_fail key _ _ _ _ Hr) as (-> & _ & _ & ?).
  - destruct (render_key (icon button) (label button)
                (button_background button) s) as [[image|e] s0] eqn:Hr.
    + destruct (set_key_image_run key _ _ _ _ Hr) as (-> & _ & Hl & Hw).
      by rewrite maybeWrite_out_of_range by (by rewrite Hl).
    + by destruct (set_key_image_render_fail key _ _ _ _ Hr) as (-> & _ & ? & _).
  - destruct (key_images !! key) as [image|] eqn:Hi.
    + rewrite (render_all_keys_body_found _ _ _ Hi).
      left. by apply maybeWrite_out_of_range.
    + rewrite (render_all_keys_body_missing _ _ Hi). by right.
Qed.

Section Abort.
Variable body : Z -> Method unit.
Variable cand : nat -> tag.
Hypothesis Hstep : tile_step body cand.

(** An error at tile [n] ends the loop there: the tiles before it carry
    their candidate tags, the tiles after it are as they were. *)
Lemma sweep_abort (n m : nat) (e : exn) (s s1 s2 : Ctl) :
  (n < m)%nat ->
  for_each (range n) body s = (Ok tt, s1) ->
  body (Z.of_nat n) s1 = (Raise e, s2) ->
  for_each (range m) body s = (Raise e, s2)
  /\ (forall k : nat, (k < n)%nat -> _last_images s2 !! k = Some (cand k))
  /\ (forall j : nat, (n < j)%nat -> _last_images s2 !! j = _last_images s !! j).
Proof.
  intros Hnm Hpre Hb. split; [by eapply for_each_range_raise|].
  pose proof (sweep_frame body cand Hstep n s) as (_ & _ & Hrest & Hdone).
  rewrite Hpre in Hrest, Hdone. simpl in Hrest, Hdone.
  destruct (Hstep n s1) as (_ & _ & Ho & _). rewrite Hb in Ho. simpl in Ho.
  split.
  - intros k Hk. rewrite Ho by lia. by apply Hdone.
  - intros j Hj. rewrite Ho by lia. apply Hrest. lia.
Qed.

End Abort.

(** X14.  An update cycle is not atomic: when the update of tile n
    raises (a failed write, an icon that does not load), the cycle stops
    with that error; the tiles before n keep the tags the cycle gave
    them, and the tiles after n are not updated. *)
Theorem X14_error_aborts_cycle (config : ConfigStore) (n : nat) (e : exn)
    (s s1 s2 : Ctl) :
  remote_connected config = true ->
  (n < key_count D)%nat ->
  for_each (range n) (update_body config) s = (Ok tt, s1) ->
  update_body config (Z.of_nat n) s1 = (Raise e, s2) ->
  update config s = (Raise e, s2)
  /\ (forall k : nat, (k < n)%nat ->
        _last_images s2 !! k = Some (candidate_tag config k))
  /\ (forall j : nat, (n < j)%nat -> _last_images s2 !! j = _last_images s !! j).
Proof.
  intros Hc Hn Hpre Hb. rewrite update_connected by done.
  by apply (sweep_abort _ _ (update_body_step config) n (key_count D) e s s1 s2).
Qed.

End Edges.

Lemma X13_witness :
  set_key_empty 8 (sim_start None) = (Raise IndexError, sim_start None).
Proof.
  refine (proj1 (X13_key_out_of_range 8 gear_on ∅ (sim_start None) _)).
  vm_compute. intros [_ Hlt]. discriminate Hlt.
Defined.

Lemma X14_witness :
  (update config_missing (sim_start None)).1 = Raise AssetError
  /\ _last_images (update config_missing (sim_start None)).2 !! 0%nat
     = Some (candidate_tag config_missing 0)
  /\ _last_images (update config_missing (sim_start None)).2 !! 2%nat
     = Some TAG_NONE.
Proof.
  destruct (X14_error_aborts_cycle config_missing 1 AssetError
              (sim_start None)
              (update_body config_missing 0 (sim_start None)).2
              (update config_missing (sim_start None)).2)
    as (Hu & Hbefore & Hafter).
  - reflexivity.
  - vm_compute. lia.
  - vm_compute. reflexivity.
  - vm_compute. reflexivity.
  - split; [by rewrite Hu|]. split.
    + apply Hbefore. lia.
    + rewrite Hafter by lia. vm_compute. reflexivity.
Defined.

(** ** The session: open, close, key presses *)

Section Sessions.
Context {D Image Native : Type}.
Context `{!ImageOps Image} `{!DeckOps D Image Native}.

Local Abbreviation Ctl := (StreamDeckController D Image Native).
Local Abbreviation Method := (M D Image Native).
Local Open Scope method_scope.

Lemma open_run (config : ConfigStore) (s : Ctl) :
  (exists s0,
      same_memory s s0
      /\ calls s0 = OPEN_HANDSHAKE ++ calls s
      /\ open config s = update config s0)
  \/ (exists s0 l,
        same_memory s s0
        /\ calls s0 = l ++ calls s
        /\ l ≠ [] /\ l `suffix_of` OPEN_HANDSHAKE
        /\ open config s = (Raise TransportError, s0)).
Proof.
  unfold open. rewrite bind_deck_call.
  destruct (deck_open (_deck s)).1.
  2:{ right. eexists _, [EvOpen]. split_and!.
      5: reflexivity. all: try done.
      by exists [EvSetKeyCallback; EvSetBrightness 80; EvGetFirmwareVersion;
                 EvGetSerialNumber]. }
  rewrite bind_deck_call. simpl.
  destruct (deck_get_serial_number _).1.
  2:{ right. eexists _, [EvGetSerialNumber; EvOpen]. split_and!.
      5: reflexivity. all: try done.
      by exists [EvSetKeyCallback; EvSetBrightness 80; EvGetFirmwareVersion]. }
  rewrite bind_deck_call. simpl.
  destruct (deck_get_firmware_version _).1.
  2:{ right. eexists _, [EvGetFirmwareVersion; EvGetSerialNumber; EvOpen].
      split_and!. 5: reflexivity. all: try done.
      by exists [EvSetKeyCallback; EvSetBrightness 80]. }
  rewrite bind_deck_call. simpl.
  destruct (deck_set_brightness 80 _).1.
  2:{ right.
      eexists _, [EvSetBrightness 80; EvGetFirmwareVersion; EvGetSerialNumber;
                  EvOpen].
      split_and!. 5: reflexivity. all: try done.
      by exists [EvSetKeyCallback]. }
  rewrite bind_deck_call. simpl.
  destruct (deck_set_key_callback _).1.
  2:{ right. eexists _, OPEN_HANDSHAKE. split_and!.
      5: reflexivity. all: done. }
  left. eexists. split_and!. 3: reflexivity. all: done.
Qed.

(** X15.  [open] talks to the device in a fixed order: open, serial
    number, firmware version, brightness 80, key callback.  The first of
    these calls that the device does not accept makes [open] raise
    TransportError right there: no later call is made, and no tag, cache
    entry or background slice is touched.  When all five are accepted,
    [open] is exactly the update cycle run after them. *)
Theorem X15_open_handshake_order (config : ConfigStore) (s : Ctl) :
  let s1 := called EvOpen deck_open s in
  let s2 := called EvGetSerialNumber deck_get_serial_number s1 in
  let s3 := called EvGetFirmwareVersion deck_get_firmware_version s2 in
  let s4 := called (EvSetBrightness 80) (deck_set_brightness 80) s3 in
  let s5 := called EvSetKeyCallback deck_set_key_callback s4 in
  open config s =
    (if negb (accepts deck_open s) then (Raise TransportError, s1)
     else if negb (accepts deck_get_serial_number s1)
       then (Raise TransportError, s2)
     else if negb (accepts deck_get_firmware_version s2)
       then (Raise TransportError, s3)
     else if negb (accepts (deck_set_brightness 80) s3)
       then (Raise TransportError, s4)
     else if negb (accepts deck_set_key_callback s4)
       then (Raise TransportError, s5)
     else update config s5)
  /\ calls s1 = EvOpen :: calls s
  /\ calls s2 = EvGetSerialNumber :: EvOpen :: calls s
  /\ calls s3 = EvGetFirmwareVersion :: EvGetSerialNumber :: EvOpen :: calls s
  /\ calls s4 = EvSetBrightness 80 :: EvGetFirmwareVersion :: EvGetSerialNumber
                 :: EvOpen :: calls s
  /\ calls s5 = OPEN_HANDSHAKE ++ calls s
  /\ same_memory s s1 /\ same_memory s s2 /\ same_memory s s3
  /\ same_memory s s4 /\ same_memory s s5.
Proof.
  cbv zeta. split; [apply open_unfold|]. by repeat split.
Qed.

Lemma only_wrote_refl (s : Ctl) : only_wrote s s.
Proof. by exists []. Qed.

Lemma only_wrote_step (s s1 s2 : Ctl) (key : Z) (image : Native) :
  only_wrote s s1 ->
  calls s2 = calls s1 \/ calls s2 = EvSetKeyImage key image :: calls s1 ->
  only_wrote s s2.
Proof.
  intros (l & Hl & Hf) [Hc|Hc].
  - exists l. by rewrite Hc.
  - exists (EvSetKeyImage key image :: l). rewrite Hc, Hl. split; [done|].
    by constructor.
Qed.

Lemma render_all_keys_only_wrote (key_images : gmap Z Native) (s : Ctl) :
  only_wrote s (render_all_keys key_images s).2.
Proof.
  apply (for_each_range_inv (fun s' => only_wrote s s') (fun _ => True));
    [|apply only_wrote_refl].
  intros k s' _ Hs'. split; [|done].
  destruct (key_images !! Z.of_nat k) as [image|] eqn:Hi.
  - rewrite (render_all_keys_body_found _ _ _ Hi).
    eapply only_wrote_step; [exact Hs'|].
    by destruct (maybeWrite_frame (Z.of_nat k) TAG_RENDER_ALL image s')
      as (_ & _ & _ & _ & ?).
  - by rewrite (render_all_keys_body_missing _ _ Hi).
Qed.

(** X16.  [close] reaches [deck.close()] only on an open deck and only
    after the background sweep returned.  On a deck that is not open it
    does nothing.  If a background write raises, [close] raises that
    error having made nothing but key-image writes: the device is never
    closed, and when the error is a TransportError [__exit__] still
    returns normally, in that same state. *)
Theorem X16_close_skips_device_close_after_failed_sweep (s : Ctl) :
  (deck_is_open (_deck s) = false ->
   close s = (Ok tt, s) /\ exit s = (Ok tt, s))
  /\ (deck_is_open (_deck s) = true ->
      forall e s0, render_all_keys (_default_background s) s = (Raise e, s0) ->
        close s = (Raise e, s0)
        /\ only_wrote s s0
        /\ (e = TransportError -> exit s = (Ok tt, s0)))
  /\ (deck_is_open (_deck s) = true ->
      forall s0, render_all_keys (_default_background s) s = (Ok tt, s0) ->
        calls (close s).2 = EvClose :: calls s0
        /\ only_wrote s s0).
Proof.
  split; [|split].
  - intros Hclosed. rewrite exit_unfold, close_run, Hclosed. done.
  - intros Hopen e s0 Hr.
    pose proof (render_all_keys_only_wrote (_default_background s) s) as Hw.
    rewrite Hr in Hw.
    rewrite exit_unfold, close_run, Hopen, Hr. split; [done|]. split; [done|].
    intros ->. by rewrite decide_True.
  - intros Hopen s0 Hr.
    pose proof (render_all_keys_only_wrote (_default_background s) s) as Hw.
    rewrite Hr in Hw.
    rewrite close_run, Hopen, Hr, deck_call_run. done.
Qed.

(** X17.  A key press is only published: [on_key_change] reads the
    serial number, then notifies the publisher once with (key, selected);
    it writes no tile and changes no tag and no cache entry.  If reading
    the serial number raises, the TransportError propagates and the
    publisher is not notified. *)
Theorem X17_key_press_is_only_published (key : Z) (sel : bool) (s : Ctl) :
  let r := on_key_change key sel s in
  same_memory s r.2
  /\ writes r.2 = writes s
  /\ ((deck_get_serial_number (_deck s)).1 = true ->
      r.1 = Ok tt
      /\ calls r.2 = EvSendButtonSelected key sel :: EvGetSerialNumber :: calls s)
  /\ ((deck_get_serial_number (_deck s)).1 = false ->
      r.1 = Raise TransportError
      /\ calls r.2 = EvGetSerialNumber :: calls s).
Proof.
  cbv zeta. unfold on_key_change. rewrite bind_deck_call.
  destruct (deck_get_serial_number (_deck s)).1; by repeat split.
Qed.

End Sessions.

Lemma X16_witness :
  (close (sim_start None) = (Ok tt, sim_start None)
   /\ exit (sim_start None) = (Ok tt, sim_start None))
  /\ close sim_failing_sweep
     = (Raise TransportError,
        (render_all_keys (_default_background sim_failing_sweep)
           sim_failing_sweep).2)
  /\ exit sim_failing_sweep
     = (Ok tt,
        (render_all_keys (_default_background sim_failing_sweep)
           sim_failing_sweep).2).
Proof.
  split.
  - apply (proj1 (X16_close_skips_device_close_after_failed_sweep
                    (sim_start None))).
    reflexivity.
  - destruct (X16_close_skips_device_close_after_failed_sweep sim_failing_sweep)
      as (_ & Hfail & _).
    destruct (Hfail eq_refl TransportError
                (render_all_keys (_default_background sim_failing_sweep)
                   sim_failing_sweep).2) as (Hc & _ & He).
    + vm_compute. reflexivity.
    + split; [exact Hc|exact (He eq_refl)].
Defined.

Lemma X17_witness :
  (on_key_change 3 true (sim_start (Some 0%nat))).1 = Raise TransportError
  /\ calls (on_key_change 3 true (sim_start (Some 0%nat))).2
     = EvGetSerialNumber :: calls (sim_start (Some 0%nat)).
Proof.
  apply (proj2 (proj2 (proj2 (X17_key_press_is_only_published 3 true
                                (sim_start (Some 0%nat)))))).
  vm_compute. reflexivity.
Defined.

(** ** The controller invariant *)

Section Invariant.
Context {D Image Native : Type}.
Context `{!ImageOps Image} `{!DeckOps D Image Native}.

Local Abbreviation Ctl := (StreamDeckController D Image Native).
Local Abbreviation Method := (M D Image Native).
Local Open Scope method_scope.

Lemma well_formed_frame (s s' : Ctl) :
  length (_last_images s') = length (_last_images s) ->
  _default_background s' = _default_background s ->
  well_formed s -> well_formed s'.
Proof. unfold well_formed. intros -> ->. done. Qed.

Lemma maybeWrite_well_formed (key : Z) (c : tag) (image : Native) (s : Ctl) :
  well_formed s -> well_formed (maybeWrite key c image s).2.
Proof.
  destruct (maybeWrite_frame key c image s) as (_ & _ & Hb & Hl & _).
  by apply well_formed_frame.
Qed.

Lemma render_key_well_formed (i l b : string) (s : Ctl) :
  well_formed s -> well_formed (render_key i l b s).2.
Proof.
  destruct (render_key_frame i l b s) as (_ & Hl & Hb & _).
  apply well_formed_frame; [by rewrite Hl|done].
Qed.

Lemma set_key_image_well_formed (key : Z) (button : ButtonConfig) (s : Ctl) :
  well_formed s -> well_formed (set_key_image key button s).2.
Proof.
  intros Hwf.
  pose proof (render_key_well_formed (icon button) (label button)
                (button_background button) s Hwf) as Hwf0.
  destruct (render_key (icon button) (label button)
              (button_background button) s) as [[image|e] s0] eqn:Hr.
  - destruct (set_key_image_run key _ _ _ _ Hr) as (-> & _).
    by apply maybeWrite_well_formed.
  - by destruct (set_key_image_render_fail key _ _ _ _ Hr) as (-> & _).
Qed.

Lemma update_well_formed (config : ConfigStore) (s : Ctl) :
  well_formed s -> well_formed (update config s).2.
Proof.
  destruct (cycle_step config s) as (body & -> & Hstep).
  destruct (sweep_frame body _ Hstep (key_count D) s) as (Hl & Hb & _).
  by apply well_formed_frame.
Qed.

Lemma same_memory_well_formed (s s' : Ctl) :
  same_memory s s' -> well_formed s -> well_formed s'.
Proof.
  intros (_ & Hb & _ & Hl). apply well_formed_frame; [by rewrite Hl|done].
Qed.

Lemma open_well_formed (config : ConfigStore) (s : Ctl) :
  well_formed s -> well_formed (open config s).2.
Proof.
  intros Hwf.
  destruct (open_run config s) as [(s0 & Hm & _ & ->)|(s0 & l & Hm & _ & _ & _ & ->)].
  - apply update_well_formed. by eapply same_memory_well_formed.
  - by eapply same_memory_well_formed.
Qed.

Lemma render_all_keys_well_formed (key_images : gmap Z Native) (s : Ctl) :
  well_formed s -> well_formed (render_all_keys key_images s).2.
Proof.
  destruct (sweep_frame _ _ (render_all_keys_body_step key_images)
              (key_count D) s) as (Hl & Hb & _).
  by apply well_formed_frame.
Qed.

Lemma close_well_formed (s : Ctl) :
  well_formed s -> well_formed (close s).2.
Proof.
  intros Hwf. rewrite close_run. destruct (deck_is_open (_deck s)); [|done].
  pose proof (render_all_keys_well_formed (_default_background s) s Hwf) as H0.
  destruct (render_all_keys (_default_background s) s) as [[[]|e] s0]; [|done].
  by rewrite deck_call_run.
Qed.

Lemma exit_state (s : Ctl) : (exit s).2 = (close s).2.
Proof.
  rewrite exit_unfold. destruct (close s) as [[[]|e] s0]; [done|].
  by destruct (decide (e = TransportError)).
Qed.

(** X18.  The controller invariant (one tag per key, and a background
    slice for every key) holds after [__init__] and is kept by every
    method, whatever its arguments and whether it returns or raises. *)
Theorem X18_well_formed_is_kept (config : ConfigStore) (key : Z) (sel : bool)
    (button : ButtonConfig) (s : Ctl) :
  well_formed s ->
  well_formed (update config s).2
  /\ well_formed (open config s).2
  /\ well_formed (close s).2
  /\ well_formed (exit s).2
  /\ well_formed (set_key_empty key s).2
  /\ well_formed (set_key_image key button s).2
  /\ well_formed (on_key_change key sel s).2.
Proof.
  intros Hwf.
  split; [by apply update_well_formed|].
  split; [by apply open_well_formed|].
  split; [by apply close_well_formed|].
  split; [rewrite exit_state; by apply close_well_formed|].
  split; [rewrite set_key_empty_maybeWrite; by apply maybeWrite_well_formed|].
  split; [by apply set_key_image_well_formed|].
  unfold on_key_change. rewrite bind_deck_call.
  by destruct (deck_get_serial_number (_deck s)).1.
Qed.

Lemma render_all_keys_errors (s : Ctl) (e : exn) :
  well_formed s ->
  (render_all_keys (_default_background s) s).1 = Raise e ->
  e = TransportError.
Proof.
  intros Hwf.
  apply (for_each_range_inv
           (fun s' => length (_last_images s') = key_count D)
           (fun e => e = TransportError)); [|by destruct Hwf].
  intros k s' Hk Hs'. destruct Hwf as [_ Hbg].
  destruct (Hbg k Hk) as [image Hi].
  rewrite (render_all_keys_body_found _ _ _ Hi). split.
  - destruct (maybeWrite_frame (Z.of_nat k) TAG_RENDER_ALL image s')
      as (_ & _ & _ & Hl & _). congruence.
  - intros e'. apply maybeWrite_errors. lia.
Qed.

Lemma update_errors (config : ConfigStore) (s : Ctl) (e : exn) :
  well_formed s ->
  (update config s).1 = Raise e ->
  e = TransportError \/ (remote_connected config = true /\ e = AssetError).
Proof.
  intros Hwf. destruct (remote_connected config) eqn:Hc.
  - rewrite update_connected by done. intros He.
    assert (e = TransportError \/ e = AssetError) as [->| ->];
      [|by left|by right].
    revert e He.
    apply (for_each_range_inv
             (fun s' => length (_last_images s') = key_count D)
             (fun e => e = TransportError \/ e = AssetError));
      [|by destruct Hwf].
    intros k s' Hk Hs'. split.
    + destruct (update_body_step config k s') as (Hl & _). congruence.
    + intros e'. apply update_body_errors. lia.
  - rewrite update_disconnected by done. intros He. left.
    by eapply render_all_keys_errors.
Qed.

Lemma close_errors (s : Ctl) (e : exn) :
  well_formed s -> (close s).1 = Raise e -> e = TransportError.
Proof.
  intros Hwf. rewrite close_run. destruct (deck_is_open (_deck s)); [|done].
  pose proof (render_all_keys_errors s) as Hs.
  destruct (render_all_keys (_default_background s) s) as [[[]|e'] s0].
  - rewrite deck_call_run. simpl. destruct (deck_close (_deck s0)).1; [done|].
    by intros [= <-].
  - simpl. intros [= <-]. by apply Hs.
Qed.

(** X19.  On a controller that satisfies the invariant (any controller
    [__init__] returned, after any calls) no method raises an index or
    key error: [close] can only raise TransportError, so [__exit__]
    always returns normally; an update cycle and [open] can only raise
    TransportError, or the asset error when the remote is connected. *)
Theorem X19_errors_of_a_well_formed_controller (config : ConfigStore) (s : Ctl) :
  well_formed s ->
  (exit s).1 = Ok tt
  /\ (forall e, (close s).1 = Raise e -> e = TransportError)
  /\ (forall e, (update config s).1 = Raise e ->
        e = TransportError \/ (remote_connected config = true /\ e = AssetError))
  /\ (forall e, (open config s).1 = Raise e ->
        e = TransportError \/ (remote_connected config = true /\ e = AssetError)).
Proof.
  intros Hwf. split; [|split; [|split]].
  - pose proof (close_errors s) as Hc. rewrite exit_unfold.
    destruct (close s) as [[[]|e] s0]; [done|]. simpl in Hc.
    rewrite (Hc e Hwf eq_refl). by rewrite decide_True.
  - intros e. by apply close_errors.
  - intros e. by apply update_errors.
  - intros e.
    destruct (open_run config s) as [(s0 & Hm & _ & ->)|(s0 & l & _ & _ & _ & _ & ->)].
    + apply update_errors. by eapply same_memory_well_formed.
    + intros [= <-]. by left.
Qed.

End Invariant.

Lemma X18_witness :
  well_formed (open config_connected (sim_start (Some 7%nat))).2
  /\ well_formed (close sim_failing_sweep).2.
Proof.
  assert (well_formed (sim_start (Some 7%nat))) as H1.
  { apply (init_well_formed (sim_deck (Some 7%nat)) "assets").
    vm_compute. reflexivity. }
  assert (well_formed sim_failing_sweep) as H2.
  { split; [reflexivity|]. intros k Hk.
    apply (init_well_formed (sim_deck None) "assets" (sim_start None)).
    - vm_compute. reflexivity.
    - exact Hk. }
  split.
  - exact (proj1 (proj2 (X18_well_formed_is_kept config_connected 0 true
                           gear_on _ H1))).
  - exact (proj1 (proj2 (proj2 (X18_well_formed_is_kept config_connected 0 true
                                  gear_on _ H2)))).
Defined.

Lemma X19_witness :
  (exit sim_failing_sweep).1 = Ok tt.
Proof.
  refine (proj1 (X19_errors_of_a_well_formed_controller config_connected
                   sim_failing_sweep _)).
  split; [reflexivity|]. intros k Hk.
  apply (init_well_formed (sim_deck None) "assets" (sim_start None)).
  - vm_compute. reflexivity.
  - exact Hk.
Defined.

(** ** From one configuration to the next *)

Section Changes.
Context {D Image Native : Type}.
Context `{!ImageOps Image} `{!DeckOps D Image Native}.

Local Abbreviation Ctl := (StreamDeckController D Image Native).
Local Open Scope method_scope.

Lemma stale_keys_changed (config config' : ConfigStore) (n : nat) (s : Ctl) :
  (forall k : nat, (k < n)%nat -> _last_images s !! k = Some (cycle_tag config k)) ->
  stale_keys (cycle_tag config') n s = changed_keys config config' n.
Proof.
  intros Htags. induction n as [|n IH]; [done|].
  rewrite stale_keys_S, IH by (intros; apply Htags; lia).
  unfold changed_keys. rewrite seq_S, filter_app, fmap_app. f_equal.
  simpl. rewrite filter_cons, filter_nil, Htags by lia.
  destruct (decide (cycle_tag config n = cycle_tag config' n)) as [He|Hne].
  - rewrite decide_True by (by rewrite He).
    by rewrite decide_False by (intros Hn; by apply Hn).
  - rewrite decide_False by (intros [= Hn]; by apply Hne).
    by rewrite decide_True by done.
Qed.

(** X20.  Images are sent only on changes: when a cycle for one
    configuration has returned, a following cycle for another
    configuration that returns writes exactly the tiles to which the two
    configurations give different tags, once each and in index order. *)
Theorem X20_next_cycle_writes_only_changed_tiles (config config' : ConfigStore)
    (s s1 s2 : Ctl) :
  update config s = (Ok tt, s1) ->
  update config' s1 = (Ok tt, s2) ->
  written_keys s2
    = reverse (changed_keys config config' (key_count D)) ++ written_keys s1.
Proof.
  intros Hu Hu'. rewrite (update_written _ _ _ Hu').
  rewrite (stale_keys_changed config config'); [done|].
  by apply (update_Ok_tags config s).
Qed.

Lemma button_tag_inj (button button' : ButtonConfig) :
  button_tag button = button_tag button' -> button = button'.
Proof.
  destruct button as [i l sel], button' as [i' l' sel'].
  unfold button_tag, TAG_RENDER_KEY, button_background. simpl.
  intros [= -> -> Hbg]. f_equal.
  by destruct sel, sel'.
Qed.

Lemma candidate_tag_configured (config config' : ConfigStore) (k : nat) :
  candidate_tag config k = candidate_tag config' k
  <-> configured config k = configured config' k.
Proof.
  unfold candidate_tag.
  destruct (configured config k) as [b|], (configured config' k) as [b'|];
    split; try done.
  - by intros ->%button_tag_inj.
  - by intros [= ->].
Qed.

Lemma elem_of_changed_keys (config config' : ConfigStore) (n k : nat) :
  Z.of_nat k ∈ changed_keys config config' n
  <-> (k < n)%nat /\ cycle_tag config k ≠ cycle_tag config' k.
Proof.
  unfold changed_keys. rewrite list_elem_of_fmap. split.
  - intros (j & Hj & Hin). apply Nat2Z.inj in Hj. subst j.
    apply list_elem_of_filter in Hin as [Hne Hin]. apply elem_of_seq in Hin.
    split; [lia|done].
  - intros [Hk Hne]. exists k. split; [done|].
    apply list_elem_of_filter. split; [done|]. apply elem_of_seq. lia.
Qed.

(** X21.  Between two update cycles with the remote connected that both
    return, a tile is rewritten exactly when its configured button
    changed (another icon, label or selection state, or a button
    appearing or disappearing): a tile whose button changed is never
    skipped, and a tile whose button is the same is never rewritten. *)
Theorem X21_changed_button_is_redrawn (config config' : ConfigStore)
    (s s1 s2 : Ctl) (k : nat) :
  remote_connected config = true ->
  remote_connected config' = true ->
  update config s = (Ok tt, s1) ->
  update config' s1 = (Ok tt, s2) ->
  (k < key_count D)%nat ->
  exists l : list Z,
    written_keys s2 = l ++ written_keys s1
    /\ (Z.of_nat k ∈ l <-> configured config k ≠ configured config' k).
Proof.
  intros Hc Hc' Hu Hu' Hk.
  exists (reverse (changed_keys config config' (key_count D))). split.
  - rewrite (update_written _ _ _ Hu').
    rewrite (stale_keys_changed config config'); [done|].
    by apply (update_Ok_tags config s).
  - rewrite elem_of_reverse, elem_of_changed_keys.
    unfold cycle_tag. rewrite Hc, Hc', candidate_tag_configured.
    split; [by intros [_ ?]|by split].
Qed.

End Changes.

Lemma X20_witness :
  let s1 := (update config_connected (sim_start None)).2 in
  let s2 := (update config_disconnected s1).2 in
  written_keys s2
    = reverse (changed_keys config_connected config_disconnected
                 (key_count SimDeck)) ++ written_keys s1.
Proof.
  cbv zeta.
  apply (X20_next_cycle_writes_only_changed_tiles config_connected
           config_disconnected (sim_start None));
    vm_compute; reflexivity.
Defined.

Lemma X21_witness :
  let s1 := (update config_connected (sim_start None)).2 in
  let s2 := (update config_toggled s1).2 in
  exists l : list Z,
    written_keys s2 = l ++ written_keys s1
    /\ (Z.of_nat 0 ∈ l <-> configured config_connected 0 ≠ configured config_toggled 0).
Proof.
  cbv zeta.
  apply (X21_changed_button_is_redrawn config_connected config_toggled
           (sim_start None)).
  - reflexivity.
  - reflexivity.
  - vm_compute. reflexivity.
  - vm_compute. reflexivity.
  - vm_compute. lia.
Defined.
